(** * WattCompare front end (frontend/script.js): a shallow embedding

    The script is a set of DOM event handlers around a little shared state:
    the two comparison slots [selectedForCompare], the cached [appliances]
    list and the text of a few elements.  Handlers are embedded in a small
    monad over that state which records every externally visible effect
    (requests, alerts, downloads) in a trace and can abort with a JavaScript
    exception, also where a value is converted to text.  The answers of the
    backend are an input of each handler run.  The replacement table of
    [escapeHtml] in line 163 is not a well-formed expression: markup keeps
    the text that goes through it apart, and nothing stated here rests on
    what the replacement yields. *)

From Stdlib Require Import ZArith List String Ascii Bool Lia DecimalString.
Import ListNotations.
Open Scope string_scope.
Set Warnings "-register-all".

(* ------------------------------------------------------------------ *)
(** ** JavaScript values *)

(** Primitive values.  A number is given by the decimal value JavaScript
    prints for it (the shortest decimal that reads back as the same double):
    [PNum n] is the integer [n], [PDec m d] is [m / 10^d], and
    [PInfinity] is what [JSON.parse] makes of a literal beyond the range.  The
    number [-0] is [PNum 0]: it equals [0], is falsy and prints as [0].
    [JSON.parse] never yields NaN, so [===] is reflexive on these values. *)
Inductive prim : Type :=
| PUndefined
| PNull
| PBool (b : bool)
| PNum (n : Z)
| PDec (m : Z) (d : nat)
| PInfinity (negative : bool)
| PStr (s : string).

(** The exceptions of the script, and a result that may be one. *)
Inductive exn : Type := TypeError | SyntaxError | NetworkError.

Inductive result (A : Type) : Type :=
| Done (a : A)
| Throw (e : exn).
Arguments Done {A} a.
Arguments Throw {A} e.

(** Values read out of a JSON body. *)
Inductive jsval : Type :=
| VPrim (p : prim)
| VArr (elems : list jsval)
| VObj (props : list (string * jsval)).

Definition undefined : jsval := VPrim PUndefined.

(** Equality of the numbers [m1 / 10^d1] and [m2 / 10^d2]. *)
Definition dec_eqb (m1 : Z) (d1 : nat) (m2 : Z) (d2 : nat) : bool :=
  Z.eqb (m1 * 10 ^ Z.of_nat d2) (m2 * 10 ^ Z.of_nat d1).

(** [a === b] on primitives. *)
Definition strict_eq (a b : prim) : bool :=
  match a, b with
  | PUndefined, PUndefined => true
  | PNull, PNull => true
  | PBool x, PBool y => Bool.eqb x y
  | PNum x, PNum y => Z.eqb x y
  | PNum x, PDec m d => dec_eqb x 0 m d
  | PDec m d, PNum y => dec_eqb m d y 0
  | PDec m1 d1, PDec m2 d2 => dec_eqb m1 d1 m2 d2
  | PInfinity x, PInfinity y => Bool.eqb x y
  | PStr x, PStr y => String.eqb x y
  | _, _ => false
  end.

(** ToBoolean: the falsy values are [undefined], [null], [false], [0]
    and the empty string. *)
Definition truthy_prim (p : prim) : bool :=
  match p with
  | PUndefined | PNull => false
  | PBool b => b
  | PNum n => negb (Z.eqb n 0)
  | PDec m _ => negb (Z.eqb m 0)
  | PInfinity _ => true
  | PStr s => negb (String.eqb s "")
  end.

Definition truthy (v : jsval) : bool :=
  match v with
  | VPrim p => truthy_prim p
  | _ => true
  end.

(** The test of [??]. *)
Definition nullish (v : jsval) : bool :=
  match v with
  | VPrim PUndefined | VPrim PNull => true
  | _ => false
  end.

(** [a || b] and [a ?? b]. *)
Definition js_or (a b : jsval) : jsval := if truthy a then a else b.
Definition js_coalesce (a b : jsval) : jsval := if nullish a then b else a.

(** [a || b] on strings: only the empty string is falsy. *)
Definition or_str (a b : string) : string :=
  if String.eqb a "" then b else a.

(** The decimal digits of a natural number, and a run of [n] zeros. *)
Definition digits (n : N) : string := NilZero.string_of_uint (N.to_uint n).

Fixpoint zeros (n : nat) : string :=
  match n with
  | O => ""
  | S k => String "0" (zeros k)
  end.

(** [s] without its trailing zeros. *)
Fixpoint strip_zeros (s : string) : string :=
  match s with
  | EmptyString => EmptyString
  | String c t =>
      match strip_zeros t with
      | EmptyString =>
          if Ascii.eqb c "0" then EmptyString else String c EmptyString
      | t' => String c t'
      end
  end.

(** Number::toString of [m / 10^d].  With [s] the digits of [|m|] without
    trailing zeros, [k] their number and [n] the number of digits before
    the decimal point: the digits followed by zeros when [k <= n <= 21],
    the digits with a point inside when [0 < n <= 21], a leading [0.] when
    [-6 < n <= 0], and the exponent form otherwise. *)
Definition number_to_string (m : Z) (d : nat) : string :=
  if Z.eqb m 0 then "0"
  else
    let all := digits (Z.abs_N m) in
    let s := strip_zeros all in
    let k := String.length s in
    let n := (Z.of_nat (String.length all) - Z.of_nat d)%Z in
    let sign := if Z.ltb m 0 then "-" else "" in
    let body :=
      if Z.leb (Z.of_nat k) n && Z.leb n 21
      then s ++ zeros (Z.to_nat n - k)
      else if Z.ltb 0 n && Z.leb n 21
      then substring 0 (Z.to_nat n) s ++ "."
             ++ substring (Z.to_nat n) (k - Z.to_nat n) s
      else if Z.ltb (-6) n && Z.leb n 0
      then "0." ++ zeros (Z.to_nat (- n)) ++ s
      else
        let e := (n - 1)%Z in
        (if Nat.eqb k 1 then s
         else substring 0 1 s ++ "." ++ substring 1 (k - 1) s)
          ++ "e" ++ (if Z.leb 0 e then "+" else "-") ++ digits (Z.abs_N e) in
    sign ++ body.

Definition num_to_string (n : Z) : string := number_to_string n 0.

Definition join (sep : string) (l : list string) : string :=
  match l with
  | [] => ""
  | x :: t => fold_left (fun acc y => acc ++ sep ++ y) t x
  end.

Definition prim_to_string (p : prim) : string :=
  match p with
  | PUndefined => "undefined"
  | PNull => "null"
  | PBool b => if b then "true" else "false"
  | PNum n => num_to_string n
  | PDec m d => number_to_string m d
  | PInfinity negative => if negative then "-Infinity" else "Infinity"
  | PStr s => s
  end.

(** Whether the object has an own property [k]. *)
Fixpoint has_key (k : string) (ps : list (string * jsval)) : bool :=
  match ps with
  | [] => false
  | (k', _) :: t => String.eqb k k' || has_key k t
  end.

(** ToString, as applied by a template literal, by an assignment to
    [textContent], by [alert] and by a call of [toString()].  An array is
    joined with commas, its [null] entries left empty, and an object prints
    as [[object Object]]: this is [text_of].  The conversion throws a
    TypeError when it meets an object with an own property [toString]: a
    value read from JSON is never a function (an own [valueOf] alone changes
    nothing, [toString] is tried first).  [printable] tells whether it goes
    through. *)
Fixpoint text_of (v : jsval) : string :=
  match v with
  | VPrim p => prim_to_string p
  | VArr l =>
      join "," (map (fun x => if nullish x then "" else text_of x) l)
  | VObj _ => "[object Object]"
  end.

Fixpoint printable (v : jsval) : bool :=
  match v with
  | VPrim _ => true
  | VArr l => forallb (fun x => nullish x || printable x) l
  | VObj ps => negb (has_key "toString" ps)
  end.

Definition to_string (v : jsval) : result string :=
  if printable v then Done (text_of v) else Throw TypeError.

(** Property read [v.k] on a value that is neither [null] nor [undefined]:
    objects are looked up, everything else has no such property. *)
Fixpoint assoc (k : string) (ps : list (string * jsval)) : jsval :=
  match ps with
  | [] => undefined
  | (k', v) :: t => if String.eqb k k' then v else assoc k t
  end.

Definition get_prop (v : jsval) (k : string) : jsval :=
  match v with
  | VObj ps => assoc k ps
  | _ => undefined
  end.

(* ------------------------------------------------------------------ *)
(** ** JSON.stringify *)

Definition chr (n : nat) : string := String (ascii_of_nat n) EmptyString.
Definition dquote : string := chr 34.
Definition backslash : string := chr 92.
Definition newline : string := chr 10.

Definition hex_digit (n : nat) : string :=
  match n with
  | 0 => "0" | 1 => "1" | 2 => "2" | 3 => "3" | 4 => "4" | 5 => "5"
  | 6 => "6" | 7 => "7" | 8 => "8" | 9 => "9" | 10 => "a" | 11 => "b"
  | 12 => "c" | 13 => "d" | 14 => "e" | _ => "f"
  end.

Definition quote_char (c : ascii) : string :=
  let n := nat_of_ascii c in
  if Nat.eqb n 34 then backslash ++ dquote
  else if Nat.eqb n 92 then backslash ++ backslash
  else if Nat.eqb n 8 then backslash ++ "b"
  else if Nat.eqb n 12 then backslash ++ "f"
  else if Nat.eqb n 10 then backslash ++ "n"
  else if Nat.eqb n 13 then backslash ++ "r"
  else if Nat.eqb n 9 then backslash ++ "t"
  else if Nat.ltb n 32
       then backslash ++ "u00" ++ hex_digit (n / 16) ++ hex_digit (n mod 16)
  else String c EmptyString.

Fixpoint quote_chars (s : string) : string :=
  match s with
  | EmptyString => ""
  | String c t => quote_char c ++ quote_chars t
  end.

Definition quote (s : string) : string := dquote ++ quote_chars s ++ dquote.

(** [JSON.stringify(v, null, gap)] at indentation [indent]; [None] is the
    [undefined] it returns for [undefined].  Inside an array [undefined]
    prints as [null], inside an object the property is left out; an
    infinite number prints as [null]. *)
Fixpoint stringify_at (gap indent : string) (v : jsval) : option string :=
  let inner := indent ++ gap in
  let wrap (l r : string) (items : list string) :=
    match items with
    | [] => l ++ r
    | _ =>
        if String.eqb gap "" then l ++ join "," items ++ r
        else l ++ newline ++ inner
               ++ join ("," ++ newline ++ inner) items
               ++ newline ++ indent ++ r
    end in
  match v with
  | VPrim PUndefined => None
  | VPrim (PStr s) => Some (quote s)
  | VPrim (PInfinity _) => Some "null"
  | VPrim p => Some (prim_to_string p)
  | VArr l =>
      Some (wrap "[" "]"
              (map (fun x => match stringify_at gap inner x with
                             | Some s => s
                             | None => "null"
                             end) l))
  | VObj ps =>
      Some (wrap "{" "}"
              (flat_map
                 (fun kv : string * jsval =>
                    let (k, x) := kv in
                    match stringify_at gap inner x with
                    | Some s =>
                        [quote k ++ (if String.eqb gap "" then ":" else ": ")
                           ++ s]
                    | None => []
                    end) ps))
  end.

Definition JSON_stringify (v : jsval) : option string := stringify_at "" "" v.
Definition JSON_stringify_pretty (v : jsval) : option string :=
  stringify_at "  " "" v.

(* ------------------------------------------------------------------ *)
(** ** Arrays *)

(** [a[i]]: reading past the end gives [undefined]. *)
Definition array_get (a : list prim) (i : nat) : prim := nth i a PUndefined.

(** [a[i] = v]: writing past the end extends the array. *)
Fixpoint array_set (a : list prim) (i : nat) (v : prim) : list prim :=
  match i, a with
  | O, [] => [v]
  | O, _ :: t => v :: t
  | S n, [] => PUndefined :: array_set [] n v
  | S n, h :: t => h :: array_set t n v
  end.

(** [a.includes(v)]. *)
Definition includes (a : list prim) (v : jsval) : bool :=
  match v with
  | VPrim p => existsb (fun q => strict_eq q p) a
  | _ => false
  end.

(* ------------------------------------------------------------------ *)
(** ** Requests, responses and the effect trace *)

(** Binary data (an image, a PDF) is an opaque byte string. *)
Definition blob : Type := string.

Inductive form_value : Type :=
| FText (s : string)
| FFile (data : blob) (filename : string).

Inductive http_method : Type := GET | POST.

Inductive req_body : Type :=
| BNone
| BForm (fd : list (string * form_value))
| BText (s : string).

Record request : Type := mkRequest {
  req_method : http_method;
  req_url : string;
  req_headers : list (string * string);
  req_body_of : req_body }.

(** A response: its [ok] flag, its bytes, and the value [res.json()] reads
    from them, [None] when the bytes are not JSON. *)
Record response : Type := mkResponse {
  res_ok : bool;
  res_bytes : blob;
  res_parsed : option jsval }.

(** What [fetch] settles to: a response (of any status), or a rejection
    when the exchange itself fails. *)
Inductive fetch_outcome : Type :=
| Resolved (r : response)
| Rejected.

(** The backend as seen by one handler run. *)
Definition network : Type := request -> fetch_outcome.

Inductive event : Type :=
| EvFetch (r : request)
| EvAlert (msg : string)
| EvDownload (filename : string) (data : blob)
| EvWarn (msg : string).

(** Markup assigned to [innerHTML]: literal text, and text that has gone
    through the replacement step of [escapeHtml].  The table of that step
    (line 163) is not a well-formed expression, so what the step makes of a
    text is left open: [Escaped t] stands for the outcome on [t]. *)
Inductive piece : Type :=
| Lit (s : string)
| Escaped (t : string).

Definition html : Type := list piece.

(** One rendered row of [listEl]: the record its buttons close over, its
    markup, and whether it is highlighted. *)
Record item : Type := mkItem {
  item_record : jsval;
  item_markup : html;
  item_highlit : bool }.

(** The state the handlers share: the two module variables and the
    content of the elements they read and write. *)
Record page : Type := mkPage {
  selectedForCompare : list prim;
  appliances : jsval;
  detected : string;        (* detectedEl.textContent *)
  raw : string;             (* rawEl.textContent *)
  listEl : list item;
  compareResult : html;     (* compareResult.innerHTML *)
  in_name : string;         (* value of the input fields *)
  in_price : string;
  in_rate : string;
  in_manualAec : string }.

(** [let selectedForCompare = [null, null]; let appliances = [];] on a
    page whose elements hold [d], [r] and nothing else yet. *)
Definition initial_page (d r : string) : page :=
  mkPage [PNull; PNull] (VArr []) d r [] [] "" "" "" "".

Definition set_selected (f : list prim -> list prim) (p : page) : page :=
  mkPage (f (selectedForCompare p)) (appliances p) (detected p) (raw p)
         (listEl p) (compareResult p)
         (in_name p) (in_price p) (in_rate p) (in_manualAec p).

Definition set_appliances (v : jsval) (p : page) : page :=
  mkPage (selectedForCompare p) v (detected p) (raw p)
         (listEl p) (compareResult p)
         (in_name p) (in_price p) (in_rate p) (in_manualAec p).

Definition set_detected (s : string) (p : page) : page :=
  mkPage (selectedForCompare p) (appliances p) s (raw p)
         (listEl p) (compareResult p)
         (in_name p) (in_price p) (in_rate p) (in_manualAec p).

Definition set_raw (s : string) (p : page) : page :=
  mkPage (selectedForCompare p) (appliances p) (detected p) s
         (listEl p) (compareResult p)
         (in_name p) (in_price p) (in_rate p) (in_manualAec p).

Definition set_listEl (l : list item) (p : page) : page :=
  mkPage (selectedForCompare p) (appliances p) (detected p) (raw p)
         l (compareResult p)
         (in_name p) (in_price p) (in_rate p) (in_manualAec p).

Definition set_compareResult (s : html) (p : page) : page :=
  mkPage (selectedForCompare p) (appliances p) (detected p) (raw p)
         (listEl p) s
         (in_name p) (in_price p) (in_rate p) (in_manualAec p).

(* ------------------------------------------------------------------ *)
(** ** The handler monad *)

(** The run of a computation: what it did, the page it leaves, and how
    it ended. *)
Record run (A : Type) : Type := mkRun {
  trace : list event;
  final : page;
  outcome : result A }.
Arguments mkRun {A} _ _ _.
Arguments trace {A} _.
Arguments final {A} _.
Arguments outcome {A} _.

Definition M (A : Type) : Type := network -> page -> run A.

Definition ret {A} (a : A) : M A := fun _ p => mkRun [] p (Done a).

Definition bind {A B} (m : M A) (k : A -> M B) : M B :=
  fun net p =>
    let r := m net p in
    match outcome r with
    | Done a =>
        let r' := k a net (final r) in
        mkRun (trace r ++ trace r') (final r') (outcome r')
    | Throw e => mkRun (trace r) (final r) (Throw e)
    end.

Notation "x <- m ;; k" := (bind m (fun x => k))
  (at level 61, m at next level, right associativity).
Notation "m ;; k" := (bind m (fun _ => k))
  (at level 61, right associativity).

Definition throw {A} (e : exn) : M A := fun _ p => mkRun [] p (Throw e).
Definition emit (e : event) : M unit := fun _ p => mkRun [e] p (Done tt).
Definition get_page : M page := fun _ p => mkRun [] p (Done p).
Definition update (f : page -> page) : M unit :=
  fun _ p => mkRun [] (f p) (Done tt).

(** A call to an async function that nobody awaits: its effects happen,
    a rejection stays in the dropped promise. *)
Definition detach (m : M unit) : M unit :=
  fun net p =>
    let r := m net p in
    mkRun (trace r) (final r) (Done tt).

Definition alert (msg : string) : M unit := emit (EvAlert msg).

(** [await fetch(...)]: the request goes out, then the handler resumes
    with the response or with the rejection. *)
Definition fetch_send (rq : request) : M unit := emit (EvFetch rq).

Definition fetch_settle (rq : request) : M response :=
  fun net p =>
    match net rq with
    | Resolved r => mkRun [] p (Done r)
    | Rejected => mkRun [] p (Throw NetworkError)
    end.

Definition fetch (rq : request) : M response :=
  fetch_send rq ;; fetch_settle rq.

(** [await res.json()]. *)
Definition res_json (r : response) : M jsval :=
  match res_parsed r with
  | Some v => ret v
  | None => throw SyntaxError
  end.

(** A conversion that may throw, inside a handler. *)
Definition lift {A} (r : result A) : M A :=
  match r with
  | Done a => ret a
  | Throw e => throw e
  end.

(** [v.k], which throws on [null] and [undefined]. *)
Definition member (v : jsval) (k : string) : M jsval :=
  if nullish v then throw TypeError else ret (get_prop v k).

(** [m] runs now; [later], the rest of an un-awaited async call, runs
    once [m] is over whatever [m] did, and its rejection is dropped. *)
Definition then_settle {A} (m : M A) (later : M unit) : M A :=
  fun net p =>
    let r := m net p in
    let r' := detach later net (final r) in
    mkRun (trace r ++ trace r') (final r') (outcome r).

Fixpoint for_each {A} (f : nat -> A -> M unit) (i : nat) (l : list A)
  : M unit :=
  match l with
  | [] => ret tt
  | x :: t => f i x ;; for_each f (S i) t
  end.

(* ------------------------------------------------------------------ *)
(** ** script.js *)

Definition API_BASE : string := "/api".

(** How the camera answers [startCamera]: the stream is granted; or
    [getUserMedia] (or [video.play]) rejects, which the handler learns after
    its [await]; or [navigator.mediaDevices] is missing, which throws at
    once. *)
Inductive camera : Type := CameraGranted | CameraRefused | CameraMissing.

(** [startCamera] up to its first [await], and what is left of it after:
    either failure is caught and only logged. *)
Definition startCamera_begin (cam : camera) : M unit :=
  match cam with
  | CameraMissing => emit (EvWarn "Camera error")
  | _ => ret tt
  end.

Definition startCamera_resume (cam : camera) : M unit :=
  match cam with
  | CameraRefused => emit (EvWarn "Camera error")
  | _ => ret tt
  end.

Definition startCamera (cam : camera) : M unit :=
  startCamera_begin cam ;; startCamera_resume cam.

Definition ocr_request (b : blob) : request :=
  mkRequest POST (API_BASE ++ "/ocr") []
            (BForm [("image", FFile b "capture.jpg")]).

Definition sendBlobForOcr (b : blob) : M jsval :=
  res <- fetch (ocr_request b) ;;
  json <- res_json res ;;
  ret json.

(** Assignment to [textContent]: [null] and [undefined] clear the text,
    any other value is converted. *)
Definition to_text (v : jsval) : result string :=
  if nullish v then Done "" else to_string v.

Definition of_option (o : option string) : jsval :=
  match o with
  | Some s => VPrim (PStr s)
  | None => undefined
  end.

Definition placeholder : string := "—".

Definition handleOcrResult (res : jsval) : M unit :=
  if negb (truthy res) then ret tt
  else
    kwh <- member res "estimated_kwh_per_year" ;;
    shown <- lift (to_text (js_coalesce kwh (VPrim (PStr placeholder)))) ;;
    update (set_detected shown) ;;
    raw_text <- member res "raw_text" ;;
    text <- lift (to_text (js_or raw_text (of_option (JSON_stringify res)))) ;;
    update (set_raw text).

(** The callback [captureBtn.onclick] hands to [canvas.toBlob]; [frame] is
    the blob it is called with. *)
Definition toBlob_callback (frame : option blob) : M unit :=
  match frame with
  | None => ret tt
  | Some b =>
      result <- sendBlobForOcr b ;;
      handleOcrResult result
  end.

(** [captureBtn.onclick]: the frame is drawn and [canvas.toBlob] called;
    nobody awaits its async callback, so what it throws stays in it. *)
Definition captureBtn_onclick (frame : option blob) : M unit :=
  detach (toBlob_callback frame).

(** [uploadInput.onchange]; [file] is [e.target.files[0]]. *)
Definition uploadInput_onchange (file : option blob) : M unit :=
  match file with
  | None => ret tt
  | Some f =>
      result <- sendBlobForOcr f ;;
      handleOcrResult result
  end.

(** [escapeHtml]: the empty text for a falsy value, else the replacement
    step applied to [s.toString()], which throws like any conversion. *)
Definition escapeHtml (s : jsval) : result html :=
  if negb (truthy s) then Done []
  else
    match to_string s with
    | Done t => Done [Escaped t]
    | Throw e => Throw e
    end.

Definition list_request : request :=
  mkRequest GET (API_BASE ++ "/list_appliances") [] BNone.

(** The template of a row, its three substitutions made from left to
    right. *)
Definition item_html (name kwh price : jsval) : result html :=
  match escapeHtml name with
  | Throw e => Throw e
  | Done name_html =>
      match to_string kwh with
      | Throw e => Throw e
      | Done kwh_text =>
          match to_string price with
          | Throw e => Throw e
          | Done price_text =>
              Done ([Lit "<strong>"] ++ name_html
                      ++ [Lit ("</strong><div style=" ++ dquote
                                 ++ "font-size:12px;color:#666" ++ dquote
                                 ++ ">" ++ kwh_text ++ " kWh/year • ₹"
                                 ++ price_text ++ "</div>")])%list
          end
      end
  end.

(** [renderList]: the list is emptied, then one row is appended per
    record. *)
Definition renderList : M unit :=
  update (set_listEl []) ;;
  p <- get_page ;;
  match appliances p with
  | VArr l =>
      for_each (fun _ a =>
                  name <- member a "name" ;;
                  kwh <- member a "energy_kwh" ;;
                  price <- member a "price" ;;
                  markup <- lift (item_html name kwh price) ;;
                  update (fun q =>
                            set_listEl (listEl q ++ [mkItem a markup false]) q))
               0 l
  | _ => throw TypeError
  end.

(** The part of [fetchList] after [fetch] has been called. *)
Definition fetchList_resume : M unit :=
  res <- fetch_settle list_request ;;
  data <- res_json res ;;
  update (set_appliances data) ;;
  renderList.

Definition fetchList : M unit :=
  fetch_send list_request ;; fetchList_resume.

Definition refreshBtn_onclick : M unit := fetchList.

(** What the script does when it is loaded into a document: the two
    variables are initialised, [startCamera()] runs up to its [await],
    [fetchList()] sends its request, and the two calls, which nobody awaits,
    finish later (in whichever order: the one only logs, the other only
    writes the page). *)
Definition script_load (cam : camera) : M unit :=
  update (set_selected (fun _ => [PNull; PNull])) ;;
  update (set_appliances (VArr [])) ;;
  startCamera_begin cam ;;
  fetch_send list_request ;;
  detach (startCamera_resume cam) ;;
  detach fetchList_resume.

(** [v[i]]. *)
Definition js_index (v : jsval) (i : nat) : M jsval :=
  match v with
  | VPrim PUndefined | VPrim PNull => throw TypeError
  | VArr l => ret (nth i l undefined)
  | VObj ps => ret (assoc (num_to_string (Z.of_nat i)) ps)
  | VPrim (PStr s) =>
      ret (match String.get i s with
           | Some c => VPrim (PStr (String c EmptyString))
           | None => undefined
           end)
  | _ => ret undefined
  end.

Fixpoint set_highlit (i : nat) (b : bool) (l : list item) : list item :=
  match l, i with
  | [], _ => []
  | x :: t, O => mkItem (item_record x) (item_markup x) b :: t
  | x :: t, S n => x :: set_highlit n b t
  end.

Definition highlightSelected : M unit :=
  p <- get_page ;;
  for_each (fun idx _ =>
              q <- get_page ;;
              a <- js_index (appliances q) idx ;;
              if negb (truthy a) then ret tt
              else
                id <- member a "id" ;;
                update (fun q' =>
                          set_listEl
                            (set_highlit idx
                               (includes (selectedForCompare q') id)
                               (listEl q')) q'))
           0 (listEl p).

Definition toggleSlot (slot : nat) (id : prim) : M unit :=
  p <- get_page ;;
  (if strict_eq (array_get (selectedForCompare p) slot) id
   then update (set_selected (fun a => array_set a slot PNull))
   else update (set_selected (fun a => array_set a slot id))) ;;
  fetch_send list_request ;;
  then_settle highlightSelected fetchList_resume.

Definition add_request (name price rate aec : string) : request :=
  mkRequest POST (API_BASE ++ "/add_appliance") []
            (BForm [("name", FText name); ("price", FText price);
                    ("energy_rate", FText rate); ("aec", FText aec)]).

(** [saveBtn.onclick].  [price] and [rate] default to the number [0],
    which [FormData.append] turns into the text [0]. *)
Definition saveBtn_onclick : M unit :=
  p <- get_page ;;
  let name := or_str (in_name p) "Unnamed" in
  let price := or_str (in_price p) (num_to_string 0) in
  let rate := or_str (in_rate p) (num_to_string 0) in
  let manual := or_str (in_manualAec p) "" in
  let aec := or_str (or_str manual (detected p)) "" in
  if String.eqb aec "" then alert "Please provide AEC (detected or manual)"
  else
    res <- fetch (add_request name price rate aec) ;;
    json <- res_json res ;;
    message <- member json "message" ;;
    text <- lift (to_string (js_or message (VPrim (PStr "Saved")))) ;;
    alert text ;;
    detach fetchList.

Definition compare_request (sel : list prim) : request :=
  mkRequest POST (API_BASE ++ "/compare")
            [("Content-Type", "application/json")]
            (match JSON_stringify (VObj [("ids", VArr (map VPrim sel))]) with
             | Some s => BText s
             | None => BNone
             end).

Definition displayCompare (data : jsval) : M unit :=
  text <- lift (escapeHtml (of_option (JSON_stringify_pretty data))) ;;
  update (set_compareResult ([Lit "<pre>"] ++ text ++ [Lit "</pre>"])%list).

Definition compareBtn_onclick : M unit :=
  p <- get_page ;;
  let sel := selectedForCompare p in
  if negb (truthy_prim (array_get sel 0))
     || negb (truthy_prim (array_get sel 1))
  then alert "Choose two appliances using Slot A and Slot B"
  else
    res <- fetch (compare_request sel) ;;
    json <- res_json res ;;
    displayCompare json.

Definition export_request : request :=
  mkRequest GET (API_BASE ++ "/export_pdf") [] BNone.

Definition report_filename : string := "WattCompare_Report.pdf".

(** [exportPdfBtn.onclick]: the object URL, the temporary anchor and its
    click are the one download they cause. *)
Definition exportPdfBtn_onclick : M unit :=
  res <- fetch export_request ;;
  if negb (res_ok res) then alert "PDF export failed"
  else emit (EvDownload report_filename (res_bytes res)).

(** The two buttons of a row: [toggleSlot(0, a.id, btnA)] and
    [toggleSlot(1, a.id, btnB)], for a record whose [id] is a primitive. *)
Inductive slot : Type := SlotA | SlotB.

Definition slot_index (s : slot) : nat :=
  match s with
  | SlotA => 0
  | SlotB => 1
  end.

Definition other (s : slot) : slot :=
  match s with
  | SlotA => SlotB
  | SlotB => SlotA
  end.

Definition slot_button_onclick (s : slot) (id : prim) : M unit :=
  toggleSlot (slot_index s) id.

(** What slot [s] of a page holds. *)
Definition held (p : page) (s : slot) : prim :=
  array_get (selectedForCompare p) (slot_index s).

(** The pages a session can be in through slot buttons alone, whatever
    the backend answers. *)
Inductive reachable : page -> Prop :=
| reach_initial (d r : string) : reachable (initial_page d r)
| reach_toggle (p : page) (s : slot) (id : prim) (net : network) :
    reachable p -> reachable (final (slot_button_onclick s id net p)).

(** A backend that answers every request with [r]. *)
Definition always (r : response) : network := fun _ => Resolved r.
Definition offline : network := fun _ => Rejected.

Definition json_response (ok : bool) (bytes : blob) (v : jsval) : response :=
  mkResponse ok bytes (Some v).


(* ------------------------------------------------------------------ *)
(** ** Vocabulary of the statements *)

(** [m] leaves the component [proj] of the page as it found it. *)
Definition keeps {A B} (proj : page -> B) (m : M A) : Prop :=
  forall net p, proj (final (m net p)) = proj p.

(** The selection a toggle leaves, as a function of the one it found. *)
Definition toggled (sel : list prim) (i : nat) (id : prim) : list prim :=
  if strict_eq (array_get sel i) id then array_set sel i PNull
  else array_set sel i id.

(** Slot A toggled with [x], then slot B toggled with [x]. *)
Definition toggle_A_then_B (x : prim) (net1 net2 : network) (p : page) : page :=
  final (slot_button_onclick SlotB x net2
           (final (slot_button_onclick SlotA x net1 p))).

(** The same button pressed twice. *)
Definition toggle_twice (s : slot) (x : prim) (net1 net2 : network) (p : page)
  : page :=
  final (slot_button_onclick s x net2
           (final (slot_button_onclick s x net1 p))).

(** The page after appliance 1 has been put in slot A. *)
Definition page_A1 : page :=
  final (slot_button_onclick SlotA (PNum 1) offline (initial_page "" "")).

(** No identifier sits in both slots. *)
Definition exclusive (p : page) : Prop :=
  forall x : prim, x <> PNull -> ~ (held p SlotA = x /\ held p SlotB = x).

(** The page after appliance 0 has been put in slot A and appliance 5 in
    slot B. *)
Definition page_A0_B5 : page :=
  final (slot_button_onclick SlotB (PNum 5) offline
           (final (slot_button_onclick SlotA (PNum 0) offline
                     (initial_page "" "")))).

(** The requests, alerts and downloads of a trace, in order. *)
Fixpoint fetches (tr : list event) : list request :=
  match tr with
  | [] => []
  | EvFetch r :: t => r :: fetches t
  | _ :: t => fetches t
  end.

Fixpoint alerts (tr : list event) : list string :=
  match tr with
  | [] => []
  | EvAlert m :: t => m :: alerts t
  | _ :: t => alerts t
  end.

Fixpoint downloads (tr : list event) : list (string * blob) :=
  match tr with
  | [] => []
  | EvDownload f d :: t => (f, d) :: downloads t
  | _ :: t => downloads t
  end.

(** An answer that is no JSON at all, as a failing server sends it. *)
Definition error_page : response :=
  mkResponse false "Internal Server Error" None.

(** The value the Add operation is to use for the annual energy
    consumption: the manual entry when there is one, else the detected
    text. *)
Definition resolved_aec (p : page) : string :=
  if String.eqb (in_manualAec p) "" then detected p else in_manualAec p.

(** The write request of [saveBtn.onclick] on page [p] carrying [aec]. *)
Definition add_request_of (p : page) (aec : string) : request :=
  mkRequest POST "/api/add_appliance" []
    (BForm [("name", FText (if String.eqb (in_name p) "" then "Unnamed"
                            else in_name p));
            ("price", FText (if String.eqb (in_price p) "" then "0"
                             else in_price p));
            ("energy_rate", FText (if String.eqb (in_rate p) "" then "0"
                                   else in_rate p));
            ("aec", FText aec)]).

(** The user typing into the four input fields. *)
Definition type_inputs (name price rate manual : string) (p : page) : page :=
  mkPage (selectedForCompare p) (appliances p) (detected p) (raw p)
         (listEl p) (compareResult p) name price rate manual.

(** The two image handlers. *)
Inductive image_source : Type := FromCamera | FromFile.

(** The computation in which the extraction exchange takes place: the
    upload handler itself, and for a capture the callback of [toBlob]. *)
Definition extraction (src : image_source) : option blob -> M unit :=
  match src with
  | FromCamera => toBlob_callback
  | FromFile => uploadInput_onchange
  end.

(** The text [handleOcrResult] puts into [rawEl] for the body [v]. *)
Definition raw_value (v : jsval) : jsval :=
  js_or (get_prop v "raw_text") (of_option (JSON_stringify v)).

Definition image_handler (src : image_source) : option blob -> M unit :=
  match src with
  | FromCamera => captureBtn_onclick
  | FromFile => uploadInput_onchange
  end.

(** The reading of the sample label, and a body without any reading. *)
Definition label_350 : jsval :=
  VObj [("estimated_kwh_per_year", VPrim (PNum 350));
        ("raw_text", VPrim (PStr "350 kWh/yr"))].

Definition no_reading : jsval := VObj [("error", VPrim (PStr "no text"))].

(** The page of the sample scenario: the label has been read and the
    form filled in, the manual field left empty. *)
Definition page_fridge : page :=
  type_inputs "Fridge" "12000" "7" ""
    (final (uploadInput_onchange (Some "jpeg")
              (always (json_response true "" label_350))
              (initial_page "" ""))).

(** [m] has no visible effect of its own: no request, alert or download. *)
Definition quiet {A} (m : M A) : Prop :=
  forall net p, trace (m net p) = [].

(** Everything a user or the browser can set off on the page.  A load puts
    a fresh document, whose elements hold [d] and [r], in the place of the
    page and runs the script on it. *)
Inductive action : Type :=
| ActLoad (cam : camera) (d r : string)
| ActCapture (frame : option blob)
| ActUpload (file : option blob)
| ActType (name price rate manual : string)
| ActSave
| ActRefresh
| ActToggle (s : slot) (id : prim)
| ActCompare
| ActExport.

Definition perform (a : action) : M unit :=
  match a with
  | ActLoad cam d r => fun net _ => script_load cam net (initial_page d r)
  | ActCapture frame => captureBtn_onclick frame
  | ActUpload file => uploadInput_onchange file
  | ActType name price rate manual =>
      update (type_inputs name price rate manual)
  | ActSave => saveBtn_onclick
  | ActRefresh => refreshBtn_onclick
  | ActToggle s id => slot_button_onclick s id
  | ActCompare => compareBtn_onclick
  | ActExport => exportPdfBtn_onclick
  end.

Definition is_toggle (a : action) : bool :=
  match a with
  | ActToggle _ _ => true
  | _ => false
  end.

Definition is_load (a : action) : bool :=
  match a with
  | ActLoad _ _ _ => true
  | _ => false
  end.

(** A session: actions one after the other, each with the answers the
    backend gives during it. *)
Fixpoint session (steps : list (action * network)) (p : page) : page :=
  match steps with
  | [] => p
  | (a, net) :: rest => session rest (final (perform a net p))
  end.

(** The identifiers whose slot buttons are pressed in a session. *)
Fixpoint pressed_ids (steps : list (action * network)) : list prim :=
  match steps with
  | [] => []
  | (ActToggle _ id, _) :: rest => id :: pressed_ids rest
  | _ :: rest => pressed_ids rest
  end.

(** There are no rows, or the rows stand for the first records of the
    cache, in order. *)
Definition rows_in_step (p : page) : Prop :=
  listEl p = []
  \/ exists rest : list jsval,
      appliances p = VArr (map item_record (listEl p) ++ rest).

(** What [highlightSelected] is to make of a row. *)
Definition highlight_row (sel : list prim) (it : item) : item :=
  if truthy (item_record it)
  then mkItem (item_record it) (item_markup it)
              (includes sel (get_prop (item_record it) "id"))
  else it.

(** Whether [renderList] gets a row out of the record [a]: [a] is not
    [null], its [name] is falsy or printable, and its [energy_kwh] and
    [price] are printable. *)
Definition renders (a : jsval) : bool :=
  negb (nullish a)
  && (negb (truthy (get_prop a "name")) || printable (get_prop a "name"))
  && printable (get_prop a "energy_kwh")
  && printable (get_prop a "price").

(** The row [renderList] builds for a record that renders. *)
Definition row_of (a : jsval) : item :=
  mkItem a
         (match item_html (get_prop a "name") (get_prop a "energy_kwh")
                          (get_prop a "price") with
          | Done markup => markup
          | Throw _ => []
          end)
         false.

(** The rows [renderList] gets to build from the records [l]: it stops at
    the first record that does not render. *)
Fixpoint rendered (l : list jsval) : list item :=
  match l with
  | [] => []
  | a :: t => if renders a then row_of a :: rendered t else []
  end.

Definition all_records (l : list jsval) : bool := forallb renders l.

Definition is_array (v : jsval) : bool :=
  match v with
  | VArr _ => true
  | _ => false
  end.

Definition unlit (rows : list item) : bool :=
  forallb (fun it => negb (item_highlit it)) rows.

(** A record of the list answer, and a page on which two of them are
    listed while appliance 1 sits in slot A. *)
Definition appliance_record (id : Z) (name : string) (price kwh : Z) : jsval :=
  VObj [("id", VPrim (PNum id)); ("name", VPrim (PStr name));
        ("price", VPrim (PNum price)); ("energy_kwh", VPrim (PNum kwh))].

Definition two_appliances : jsval :=
  VArr [appliance_record 1 "Fridge" 12000 350;
        appliance_record 2 "Kettle" 900 120].

Definition page_listed : page :=
  final (fetchList (always (json_response true "" two_appliances)) page_A1).

(** The page [toggleSlot] works on once it has written the slot. *)
Definition with_toggled (i : nat) (id : prim) (p : page) : page :=
  set_selected (fun sel => toggled sel i id) p.

(** [m] never leads out of the pages that satisfy [P]. *)
Definition stable {A} (P : page -> Prop) (m : M A) : Prop :=
  forall net p, P p -> P (final (m net p)).

(** What the user has entered and what was detected: all that Add reads. *)
Definition form (p : page)
  : string * string * string * string * string :=
  (detected p, in_name p, in_price p, in_rate p, in_manualAec p).

(** The page with appliance 1 in slot A and appliance 2 in slot B. *)
Definition page_A1_B2 : page :=
  final (slot_button_onclick SlotB (PNum 2) offline page_A1).

(* ------------------------------------------------------------------ *)
(** * Equations of the handler monad *)

Lemma run_eta {A} (r : run A) : mkRun (trace r) (final r) (outcome r) = r.
Proof. destruct r; reflexivity. Qed.

Lemma bind_pure {A C} (m : M A) (k : A -> M C) net p a :
  m net p = mkRun [] p (Done a) -> bind m k net p = k a net p.
Proof. intros E. unfold bind. rewrite E. cbn. apply run_eta. Qed.

Lemma bind_done {A C} (m : M A) (k : A -> M C) net p tr q a :
  m net p = mkRun tr q (Done a) ->
  bind m k net p
  = mkRun (tr ++ trace (k a net q)) (final (k a net q))
          (outcome (k a net q)).
Proof. intros E. unfold bind. rewrite E. reflexivity. Qed.

Lemma bind_throw {A C} (m : M A) (k : A -> M C) net p tr q e :
  m net p = mkRun tr q (Throw e) -> bind m k net p = mkRun tr q (Throw e).
Proof. intros E. unfold bind. rewrite E. reflexivity. Qed.

Lemma fetch_run (rq : request) net p :
  fetch rq net p
  = match net rq with
    | Resolved r => mkRun [EvFetch rq] p (Done r)
    | Rejected => mkRun [EvFetch rq] p (Throw NetworkError)
    end.
Proof.
  unfold fetch, fetch_send, fetch_settle, bind, emit. cbn.
  destruct (net rq); reflexivity.
Qed.

Lemma fetch_resolved {C} (rq : request) (k : response -> M C) net p r :
  net rq = Resolved r ->
  bind (fetch rq) k net p
  = mkRun (EvFetch rq :: trace (k r net p)) (final (k r net p))
          (outcome (k r net p)).
Proof.
  intros E.
  rewrite (bind_done (fetch rq) k net p [EvFetch rq] p r); [reflexivity |].
  rewrite fetch_run, E. reflexivity.
Qed.

Lemma fetch_rejected {C} (rq : request) (k : response -> M C) net p :
  net rq = Rejected ->
  bind (fetch rq) k net p = mkRun [EvFetch rq] p (Throw NetworkError).
Proof.
  intros E. apply bind_throw.
  rewrite fetch_run, E. reflexivity.
Qed.

Lemma res_json_parsed {C} (r : response) (k : jsval -> M C) net p v :
  res_parsed r = Some v -> bind (res_json r) k net p = k v net p.
Proof.
  intros E. apply bind_pure. unfold res_json. rewrite E. reflexivity.
Qed.

Lemma res_json_unparsed {C} (r : response) (k : jsval -> M C) net p :
  res_parsed r = None ->
  bind (res_json r) k net p = mkRun [] p (Throw SyntaxError).
Proof.
  intros E. apply bind_throw. unfold res_json. rewrite E. reflexivity.
Qed.

Lemma member_defined {C} (v : jsval) (key : string) (k : jsval -> M C) net p :
  nullish v = false -> bind (member v key) k net p = k (get_prop v key) net p.
Proof.
  intros E. apply bind_pure. unfold member. rewrite E. reflexivity.
Qed.

Lemma member_nullish {C} (v : jsval) (key : string) (k : jsval -> M C) net p :
  nullish v = true ->
  bind (member v key) k net p = mkRun [] p (Throw TypeError).
Proof.
  intros E. apply bind_throw. unfold member. rewrite E. reflexivity.
Qed.

Lemma truthy_not_nullish (v : jsval) : truthy v = true -> nullish v = false.
Proof. destruct v as [[| | b | n | m d | neg | s] | l | ps]; cbn; congruence. Qed.

Lemma fetches_app (t1 t2 : list event) :
  fetches (t1 ++ t2) = (fetches t1 ++ fetches t2)%list.
Proof.
  induction t1 as [| e t IH]; cbn; [reflexivity |].
  destruct e; cbn; rewrite IH; reflexivity.
Qed.

Lemma alerts_app (t1 t2 : list event) :
  alerts (t1 ++ t2) = (alerts t1 ++ alerts t2)%list.
Proof.
  induction t1 as [| e t IH]; cbn; [reflexivity |].
  destruct e; cbn; rewrite IH; reflexivity.
Qed.

(* ------------------------------------------------------------------ *)
(** * Frame lemmas: which computations leave a component of the page alone *)

Section Frame.
Context {B : Type} (proj : page -> B).

Lemma keeps_ret {A} (a : A) : keeps proj (ret a).
Proof. intros net p; reflexivity. Qed.

Lemma keeps_throw {A} (e : exn) : keeps proj (@throw A e).
Proof. intros net p; reflexivity. Qed.

Lemma keeps_emit (e : event) : keeps proj (emit e).
Proof. intros net p; reflexivity. Qed.

Lemma keeps_get_page : keeps proj get_page.
Proof. intros net p; reflexivity. Qed.

Lemma keeps_update (f : page -> page) :
  (forall p, proj (f p) = proj p) -> keeps proj (update f).
Proof. intros Hf net p; apply Hf. Qed.

Lemma keeps_bind {A C} (m : M A) (k : A -> M C) :
  keeps proj m -> (forall a, keeps proj (k a)) -> keeps proj (bind m k).
Proof.
  intros Hm Hk net p. unfold bind.
  destruct (outcome (m net p)) as [a | e] eqn:E; cbn.
  - rewrite Hk. apply Hm.
  - apply Hm.
Qed.

Lemma keeps_detach (m : M unit) : keeps proj m -> keeps proj (detach m).
Proof. intros Hm net p; apply Hm. Qed.

Lemma keeps_then_settle {A} (m : M A) (later : M unit) :
  keeps proj m -> keeps proj later -> keeps proj (then_settle m later).
Proof.
  intros Hm Hl net p. unfold then_settle; cbn.
  rewrite Hl. apply Hm.
Qed.

Lemma keeps_for_each {A} (f : nat -> A -> M unit) (l : list A) :
  (forall i x, keeps proj (f i x)) -> forall i, keeps proj (for_each f i l).
Proof.
  intros Hf. induction l as [| x t IH]; intros i; cbn.
  - apply keeps_ret.
  - apply keeps_bind; [apply Hf | intros _; apply IH].
Qed.

Lemma keeps_fetch_settle (rq : request) : keeps proj (fetch_settle rq).
Proof. intros net p. unfold fetch_settle. destruct (net rq); reflexivity. Qed.

Lemma keeps_fetch (rq : request) : keeps proj (fetch rq).
Proof.
  apply keeps_bind; [apply keeps_emit | intros _; apply keeps_fetch_settle].
Qed.

Lemma keeps_res_json (r : response) : keeps proj (res_json r).
Proof.
  unfold res_json. destruct (res_parsed r); [apply keeps_ret | apply keeps_throw].
Qed.

Lemma keeps_member (v : jsval) (k : string) : keeps proj (member v k).
Proof.
  unfold member. destruct (nullish v); [apply keeps_throw | apply keeps_ret].
Qed.

Lemma keeps_lift {A} (r : result A) : keeps proj (lift r).
Proof. destruct r; [apply keeps_ret | apply keeps_throw]. Qed.

Lemma keeps_js_index (v : jsval) (i : nat) : keeps proj (js_index v i).
Proof.
  destruct v as [[| | b | n | m d | neg | s] | l | ps]; cbn;
    first [apply keeps_throw | apply keeps_ret].
Qed.
End Frame.

Create HintDb frame.
#[export] Hint Resolve keeps_ret keeps_throw keeps_emit keeps_get_page
  keeps_detach keeps_then_settle keeps_fetch_settle keeps_fetch
  keeps_res_json keeps_member keeps_js_index keeps_lift : frame.

Ltac frame_step :=
  first
    [ apply keeps_bind; [| intro]
    | apply keeps_for_each; intros
    | apply keeps_update; intros; reflexivity
    | apply keeps_then_settle
    | apply keeps_detach
    | solve [auto with frame] ].

(** Rendering, highlighting and re-fetching the list never touch the
    selection. *)
Lemma renderList_keeps_selection : keeps selectedForCompare renderList.
Proof.
  unfold renderList.
  apply keeps_bind; [apply keeps_update; reflexivity | intros _].
  apply keeps_bind; [apply keeps_get_page | intros p].
  destruct (appliances p); auto with frame.
  repeat frame_step.
Qed.

Lemma fetchList_resume_keeps_selection :
  keeps selectedForCompare fetchList_resume.
Proof.
  unfold fetchList_resume.
  apply keeps_bind; [apply keeps_fetch_settle | intros res].
  apply keeps_bind; [apply keeps_res_json | intros data].
  apply keeps_bind; [apply keeps_update; reflexivity | intros _].
  apply renderList_keeps_selection.
Qed.

Lemma highlightSelected_keeps_selection :
  keeps selectedForCompare highlightSelected.
Proof.
  unfold highlightSelected.
  apply keeps_bind; [apply keeps_get_page | intros p].
  apply keeps_for_each; intros idx el.
  apply keeps_bind; [apply keeps_get_page | intros q].
  apply keeps_bind; [apply keeps_js_index | intros a].
  destruct (negb (truthy a)); [apply keeps_ret |].
  apply keeps_bind; [apply keeps_member | intros id].
  apply keeps_update; reflexivity.
Qed.

Lemma toggleSlot_selection (i : nat) (id : prim) (net : network) (p : page) :
  selectedForCompare (final (toggleSlot i id net p))
  = toggled (selectedForCompare p) i id.
Proof.
  assert (Hrest : keeps selectedForCompare
                    (fetch_send list_request ;;
                     then_settle highlightSelected fetchList_resume)).
  { apply keeps_bind; [apply keeps_emit | intros _].
    apply keeps_then_settle.
    - apply highlightSelected_keeps_selection.
    - apply fetchList_resume_keeps_selection. }
  unfold toggleSlot, toggled.
  unfold bind at 1. cbn [get_page outcome final trace].
  unfold bind at 1.
  destruct (strict_eq (array_get (selectedForCompare p) i) id);
    cbn [update outcome final trace]; rewrite Hrest; reflexivity.
Qed.

(* ------------------------------------------------------------------ *)
(** * The selection state machine *)

Lemma strict_eq_refl (x : prim) : strict_eq x x = true.
Proof.
  destruct x as [| | b | n | m d | neg | s]; cbn; trivial.
  - apply Bool.eqb_reflx.
  - apply Z.eqb_refl.
  - apply Z.eqb_refl.
  - apply Bool.eqb_reflx.
  - apply String.eqb_refl.
Qed.

Lemma array_get_set_same (a : list prim) (i : nat) (v : prim) :
  array_get (array_set a i v) i = v.
Proof.
  unfold array_get. revert a.
  induction i as [| n IH]; intros [| h t]; cbn; trivial; apply IH.
Qed.

Lemma array_get_set_other (a : list prim) (i j : nat) (v : prim) :
  j <> i -> array_get (array_set a i v) j = array_get a j.
Proof.
  unfold array_get. revert a j.
  induction i as [| n IH]; intros [| h t] [| j'] Hne; cbn; trivial;
    try congruence.
  - destruct j'; reflexivity.
  - rewrite IH by congruence. destruct j'; reflexivity.
  - apply IH; congruence.
Qed.

Lemma array_set_length (a : list prim) (i : nat) (v : prim) :
  i < List.length a -> List.length (array_set a i v) = List.length a.
Proof.
  revert a. induction i as [| n IH]; intros [| h t] Hlt; cbn in *;
    try lia; trivial.
  rewrite IH by lia. reflexivity.
Qed.

Lemma toggled_other (sel : list prim) (i j : nat) (id : prim) :
  j <> i -> array_get (toggled sel i id) j = array_get sel j.
Proof.
  intros Hne. unfold toggled.
  destruct (strict_eq (array_get sel i) id);
    apply array_get_set_other; exact Hne.
Qed.

Lemma toggled_fresh (sel : list prim) (i : nat) (id : prim) :
  strict_eq (array_get sel i) id = false ->
  array_get (toggled sel i id) i = id.
Proof.
  intros Hne. unfold toggled. rewrite Hne. apply array_get_set_same.
Qed.

Lemma toggled_held (sel : list prim) (i : nat) (id : prim) :
  strict_eq (array_get sel i) id = true ->
  array_get (toggled sel i id) i = PNull.
Proof.
  intros Heq. unfold toggled. rewrite Heq. apply array_get_set_same.
Qed.

Lemma toggled_length (sel : list prim) (i : nat) (id : prim) :
  i < List.length sel -> List.length (toggled sel i id) = List.length sel.
Proof.
  intros Hlt. unfold toggled.
  destruct (strict_eq (array_get sel i) id); apply array_set_length; exact Hlt.
Qed.

Lemma held_after_toggle (p : page) (s t : slot) (id : prim) (net : network) :
  held (final (slot_button_onclick s id net p)) t
  = array_get (toggled (selectedForCompare p) (slot_index s) id)
              (slot_index t).
Proof.
  unfold held, slot_button_onclick. rewrite toggleSlot_selection. reflexivity.
Qed.

Lemma slot_index_other (s : slot) : slot_index (other s) <> slot_index s.
Proof. destruct s; cbn; congruence. Qed.

Example page_A1_selection : selectedForCompare page_A1 = [PNum 1; PNull].
Proof. reflexivity. Qed.

(** C1, as stated, fails: when slot A already holds [x], toggling [x] in A
    empties it, so A-then-B from [[1, null]] ends in [[null, 1]]. *)
Lemma toggle_A_then_B_from_held :
  reachable page_A1
  /\ selectedForCompare (toggle_A_then_B (PNum 1) offline offline page_A1)
     = [PNull; PNum 1]
  /\ ~ (held (toggle_A_then_B (PNum 1) offline offline page_A1) SlotA = PNum 1
        /\ held (toggle_A_then_B (PNum 1) offline offline page_A1) SlotB
           = PNum 1).
Proof.
  split; [| split].
  - apply reach_toggle, reach_initial.
  - vm_compute. reflexivity.
  - intros [HA _]. vm_compute in HA. discriminate HA.
Qed.

(** C1 (amended): from every selection state in which neither slot already
    holds [x], toggling [x] in slot A and then in slot B leaves both slots
    holding [x]; nothing enforces exclusivity, and the resulting state is
    reachable whenever the starting one is. *)
Theorem toggle_A_then_B_duplicates
        (x : prim) (net1 net2 : network) (p : page) :
  strict_eq (held p SlotA) x = false ->
  strict_eq (held p SlotB) x = false ->
  held (toggle_A_then_B x net1 net2 p) SlotA = x
  /\ held (toggle_A_then_B x net1 net2 p) SlotB = x
  /\ (reachable p -> reachable (toggle_A_then_B x net1 net2 p)).
Proof.
  intros HA HB. unfold toggle_A_then_B.
  set (p1 := final (slot_button_onclick SlotA x net1 p)).
  assert (H1A : held p1 SlotA = x).
  { unfold p1. rewrite held_after_toggle. apply toggled_fresh. exact HA. }
  assert (H1B : held p1 SlotB = held p SlotB).
  { unfold p1. rewrite held_after_toggle.
    apply toggled_other. cbn; congruence. }
  split; [| split].
  - rewrite held_after_toggle, toggled_other by (cbn; congruence).
    exact H1A.
  - rewrite held_after_toggle. apply toggled_fresh.
    fold (held p1 SlotB). rewrite H1B. exact HB.
  - intros Hr. apply reach_toggle. unfold p1. apply reach_toggle. exact Hr.
Qed.

Lemma toggle_A_then_B_duplicates_witness :
  held (toggle_A_then_B (PNum 1) offline offline (initial_page "" "")) SlotA
  = PNum 1
  /\ held (toggle_A_then_B (PNum 1) offline offline (initial_page "" "")) SlotB
     = PNum 1.
Proof.
  destruct (toggle_A_then_B_duplicates (PNum 1) offline offline
              (initial_page "" "") eq_refl eq_refl) as [HA [HB _]].
  split; assumption.
Defined.

(** C2, as stated, fails: two presses reach a state with appliance 1 in
    both slots. *)
Lemma reachable_not_exclusive :
  reachable (toggle_A_then_B (PNum 1) offline offline (initial_page "" ""))
  /\ ~ exclusive
         (toggle_A_then_B (PNum 1) offline offline (initial_page "" "")).
Proof.
  split.
  - unfold toggle_A_then_B. do 2 apply reach_toggle. apply reach_initial.
  - intros Hex. apply (Hex (PNum 1)); [discriminate |].
    split; vm_compute; reflexivity.
Qed.

(** C2 (amended): every reachable selection state is a pair of exactly two
    slots, each with a single value, but an identifier is not confined to
    one slot: for every identifier [x] the state holding [x] in both slots
    is reachable. *)
Theorem reachable_two_slots_not_exclusive :
  (forall p, reachable p -> List.length (selectedForCompare p) = 2)
  /\ (forall x, exists p,
         reachable p /\ held p SlotA = x /\ held p SlotB = x).
Proof.
  split.
  - intros p Hr. induction Hr as [d r | p s id net Hr IH].
    + reflexivity.
    + unfold slot_button_onclick. rewrite toggleSlot_selection.
      rewrite toggled_length; [exact IH |].
      rewrite IH. destruct s; cbn; lia.
  - intros x.
    destruct (strict_eq PNull x) eqn:E.
    + exists (initial_page "" ""). split; [apply reach_initial |].
      destruct x; cbn in E; try discriminate. split; reflexivity.
    + exists (toggle_A_then_B x offline offline (initial_page "" "")).
      destruct (toggle_A_then_B_duplicates x offline offline
                  (initial_page "" "") E E) as [HA [HB Hr]].
      split; [apply Hr, reach_initial | split; assumption].
Qed.

Lemma reachable_two_slots_not_exclusive_witness :
  List.length (selectedForCompare page_A1) = 2.
Proof.
  destruct reachable_two_slots_not_exclusive as [Hlen _].
  apply (Hlen page_A1). unfold page_A1. apply reach_toggle, reach_initial.
Defined.

(** C3, as stated, fails: when slot A already holds appliance 1, pressing
    its slot-A button twice empties the slot and then fills it again. *)
Lemma toggle_twice_from_held :
  reachable page_A1
  /\ held page_A1 SlotA = PNum 1
  /\ held (toggle_twice SlotA (PNum 1) offline offline page_A1) SlotA = PNum 1
  /\ held (toggle_twice SlotA (PNum 1) offline offline page_A1) SlotA <> PNull.
Proof.
  split; [apply reach_toggle, reach_initial |].
  split; [reflexivity |].
  split; [vm_compute; reflexivity |].
  vm_compute. discriminate.
Qed.

(** C3 (amended): for every selection state, slot [s] and identifier [x]
    such that slot [s] does not already hold [x], toggling [x] in slot [s]
    twice in succession leaves slot [s] empty. *)
Theorem toggle_twice_empties
        (s : slot) (x : prim) (net1 net2 : network) (p : page) :
  strict_eq (held p s) x = false ->
  held (toggle_twice s x net1 net2 p) s = PNull.
Proof.
  intros Hfresh. unfold toggle_twice.
  rewrite held_after_toggle. apply toggled_held.
  fold (held (final (slot_button_onclick s x net1 p)) s).
  rewrite held_after_toggle, toggled_fresh by exact Hfresh.
  apply strict_eq_refl.
Qed.

Lemma toggle_twice_empties_witness :
  held (toggle_twice SlotB (PNum 2) offline offline page_A1) SlotB = PNull.
Proof.
  apply (toggle_twice_empties SlotB (PNum 2) offline offline page_A1).
  reflexivity.
Defined.

(** When the slot does hold [x], the two presses put [x] back. *)
Lemma toggle_twice_restores
      (s : slot) (x : prim) (net1 net2 : network) (p : page) :
  strict_eq (held p s) x = true -> x <> PNull ->
  held (toggle_twice s x net1 net2 p) s = x.
Proof.
  intros Hheld Hx. unfold toggle_twice.
  rewrite held_after_toggle. apply toggled_fresh.
  fold (held (final (slot_button_onclick s x net1 p)) s).
  rewrite held_after_toggle, toggled_held by exact Hheld.
  destruct x; cbn; congruence.
Qed.

(** C9: a toggle on slot [s] leaves the other slot of the pair exactly as
    it was, for every selection state, slot and identifier. *)
Theorem toggle_frames_other_slot
        (s : slot) (x : prim) (net : network) (p : page) :
  held (final (slot_button_onclick s x net p)) (other s) = held p (other s).
Proof.
  rewrite held_after_toggle. apply toggled_other, slot_index_other.
Qed.

(* ------------------------------------------------------------------ *)
(** * Compare *)

Lemma compare_unfold (net : network) (p : page) :
  compareBtn_onclick net p
  = if negb (truthy_prim (held p SlotA)) || negb (truthy_prim (held p SlotB))
    then mkRun [EvAlert "Choose two appliances using Slot A and Slot B"] p
               (Done tt)
    else (res <- fetch (compare_request (selectedForCompare p)) ;;
          json <- res_json res ;;
          displayCompare json) net p.
Proof.
  unfold compareBtn_onclick, held, slot_index.
  rewrite (bind_pure get_page _ net p p eq_refl).
  destruct (negb _ || negb _); reflexivity.
Qed.

(** With an empty slot the handler only alerts: no request leaves. *)
Lemma compare_rejected_when_empty (net : network) (p : page) (s : slot) :
  held p s = PNull ->
  compareBtn_onclick net p
  = mkRun [EvAlert "Choose two appliances using Slot A and Slot B"] p
          (Done tt).
Proof.
  intros Hs. rewrite compare_unfold.
  destruct s; rewrite Hs; cbn [truthy_prim negb orb];
    [reflexivity | rewrite orb_true_r; reflexivity].
Qed.

(** With two truthy identifiers exactly one request leaves, carrying the
    selection array as it stands, and nothing is alerted. *)
Lemma compare_one_exchange_when_truthy (net : network) (p : page) :
  truthy_prim (held p SlotA) = true ->
  truthy_prim (held p SlotB) = true ->
  fetches (trace (compareBtn_onclick net p))
  = [compare_request (selectedForCompare p)]
  /\ alerts (trace (compareBtn_onclick net p)) = [].
Proof.
  intros HA HB. rewrite compare_unfold, HA, HB. cbn [negb orb].
  set (rq := compare_request (selectedForCompare p)).
  destruct (net rq) as [r |] eqn:Enet.
  - rewrite (fetch_resolved rq _ net p r Enet). cbn [trace fetches alerts].
    destruct (res_parsed r) as [v |] eqn:Ev.
    + rewrite (res_json_parsed r _ net p v Ev). unfold displayCompare.
      destruct (escapeHtml (of_option (JSON_stringify_pretty v)));
        split; reflexivity.
    + rewrite (res_json_unparsed r _ net p Ev). split; reflexivity.
  - rewrite (fetch_rejected rq _ net p Enet). split; reflexivity.
Qed.

(** The body for a selection [[a, b]] is the JSON text of [{ids:[a,b]}],
    slot A first. *)
Lemma compare_request_body (a b : prim) :
  req_body_of (compare_request [a; b])
  = match JSON_stringify (VObj [("ids", VArr [VPrim a; VPrim b])]) with
    | Some s => BText s
    | None => BNone
    end.
Proof. reflexivity. Qed.

Example compare_request_1_2 :
  req_body_of (compare_request [PNum 1; PNum 2])
  = BText ("{" ++ dquote ++ "ids" ++ dquote ++ ":[1,2]}").
Proof. reflexivity. Qed.

(** The sample scenario: appliance 1 in slot A, appliance 2 in slot B, one
    request with the ids in slot order. *)
Example compare_scenario_1_2 :
  fetches (trace (compareBtn_onclick offline
                    (final (slot_button_onclick SlotB (PNum 2) offline
                              page_A1))))
  = [mkRequest POST "/api/compare" [("Content-Type", "application/json")]
               (BText ("{" ++ dquote ++ "ids" ++ dquote ++ ":[1,2]}"))].
Proof. reflexivity. Qed.

(** C4 (the code departs from it): appliance 0 in slot A and appliance 5 in
    slot B is a reachable state with an identifier in each slot, yet the
    handler treats slot A as empty, alerts and sends nothing. *)
Theorem compare_rejects_identifier_zero :
  reachable page_A0_B5
  /\ selectedForCompare page_A0_B5 = [PNum 0; PNum 5]
  /\ held page_A0_B5 SlotA <> PNull
  /\ held page_A0_B5 SlotB <> PNull
  /\ (forall net : network,
         compareBtn_onclick net page_A0_B5
         = mkRun [EvAlert "Choose two appliances using Slot A and Slot B"]
                 page_A0_B5 (Done tt)).
Proof.
  split; [unfold page_A0_B5; do 2 apply reach_toggle; apply reach_initial |].
  split; [reflexivity |].
  split; [vm_compute; discriminate |].
  split; [vm_compute; discriminate |].
  intros net. rewrite compare_unfold. reflexivity.
Qed.

(** C6 (the code departs from it): with appliance 0 in slot A and appliance
    5 in slot B no request with the payload [{ids:[0,5]}] is submitted; the
    trace of the handler holds no request at all. *)
Theorem compare_sends_nothing_for_identifier_zero :
  held page_A0_B5 SlotA = PNum 0
  /\ held page_A0_B5 SlotB = PNum 5
  /\ (forall net : network,
         fetches (trace (compareBtn_onclick net page_A0_B5)) = []).
Proof.
  split; [reflexivity |]. split; [reflexivity |].
  intros net. rewrite compare_unfold. reflexivity.
Qed.

(* ------------------------------------------------------------------ *)
(** * Add *)

Lemma or_str_empty_r (a : string) : or_str a "" = a.
Proof.
  unfold or_str. destruct (String.eqb a "") eqn:E; [| reflexivity].
  apply String.eqb_eq in E. congruence.
Qed.

Lemma save_aec_resolved (p : page) :
  or_str (or_str (or_str (in_manualAec p) "") (detected p)) ""
  = resolved_aec p.
Proof. rewrite !or_str_empty_r. reflexivity. Qed.

Lemma save_unfold (net : network) (p : page) :
  saveBtn_onclick net p
  = if String.eqb (resolved_aec p) ""
    then mkRun [EvAlert "Please provide AEC (detected or manual)"] p (Done tt)
    else (res <- fetch (add_request_of p (resolved_aec p)) ;;
          json <- res_json res ;;
          message <- member json "message" ;;
          text <- lift (to_string (js_or message (VPrim (PStr "Saved")))) ;;
          alert text ;;
          detach fetchList) net p.
Proof.
  unfold saveBtn_onclick.
  rewrite (bind_pure get_page _ net p p eq_refl).
  rewrite save_aec_resolved.
  destruct (String.eqb (resolved_aec p) ""); reflexivity.
Qed.

Lemma save_first_effect (net : network) (p : page) :
  String.eqb (resolved_aec p) "" = false ->
  exists rest,
    trace (saveBtn_onclick net p)
    = EvFetch (add_request_of p (resolved_aec p)) :: rest.
Proof.
  intros E. rewrite save_unfold, E.
  set (rq := add_request_of p (resolved_aec p)).
  destruct (net rq) as [r |] eqn:Enet.
  - rewrite (fetch_resolved rq _ net p r Enet). cbn [trace]. eexists; reflexivity.
  - rewrite (fetch_rejected rq _ net p Enet). cbn [trace]. eexists; reflexivity.
Qed.

(** C5: the Add operation uses the manual entry when it is not empty and
    the detected text otherwise; when that value is empty it only shows the
    validation message, with no request, and otherwise its first effect is
    the write request carrying that value in the field [aec]. *)
Theorem save_resolves_and_validates_aec (net : network) (p : page) :
  (in_manualAec p <> "" -> resolved_aec p = in_manualAec p)
  /\ (in_manualAec p = "" -> resolved_aec p = detected p)
  /\ (resolved_aec p = "" ->
      saveBtn_onclick net p
      = mkRun [EvAlert "Please provide AEC (detected or manual)"] p (Done tt))
  /\ (resolved_aec p <> "" ->
      exists rest,
        trace (saveBtn_onclick net p)
        = EvFetch (add_request_of p (resolved_aec p)) :: rest).
Proof.
  split; [| split; [| split]].
  - intros Hm. unfold resolved_aec.
    destruct (String.eqb (in_manualAec p) "") eqn:E; [| reflexivity].
    apply String.eqb_eq in E. contradiction.
  - intros Hm. unfold resolved_aec. rewrite Hm. reflexivity.
  - intros He. rewrite save_unfold, He. reflexivity.
  - intros Hne. apply save_first_effect.
    apply String.eqb_neq. exact Hne.
Qed.

Lemma save_resolves_and_validates_aec_witness :
  resolved_aec page_fridge = "350"
  /\ exists rest,
      trace (saveBtn_onclick offline page_fridge)
      = EvFetch (add_request "Fridge" "12000" "7" "350") :: rest.
Proof.
  split; [reflexivity |].
  destruct (save_resolves_and_validates_aec offline page_fridge)
    as [_ [Hdetected [_ Hsend]]].
  apply Hsend. rewrite (Hdetected eq_refl). vm_compute. discriminate.
Defined.

(* ------------------------------------------------------------------ *)
(** * Export *)

(** C7: when the export exchange comes back with a non-success status the
    handler shows the failure message and downloads nothing; on a success
    status it hands the body over as a file named WattCompare_Report.pdf. *)
Theorem export_download_only_on_success
        (net : network) (p : page) (r : response) :
  net export_request = Resolved r ->
  (res_ok r = false ->
   exportPdfBtn_onclick net p
   = mkRun [EvFetch export_request; EvAlert "PDF export failed"] p (Done tt)
   /\ downloads (trace (exportPdfBtn_onclick net p)) = [])
  /\ (res_ok r = true ->
      exportPdfBtn_onclick net p
      = mkRun [EvFetch export_request;
               EvDownload "WattCompare_Report.pdf" (res_bytes r)] p (Done tt)
      /\ alerts (trace (exportPdfBtn_onclick net p)) = []).
Proof.
  intros Enet. unfold exportPdfBtn_onclick.
  rewrite (fetch_resolved export_request _ net p r Enet).
  split; intros Hok; rewrite Hok; split; reflexivity.
Qed.

Lemma export_download_only_on_success_witness :
  downloads (trace (exportPdfBtn_onclick (always error_page)
                      (initial_page "" ""))) = []
  /\ downloads (trace (exportPdfBtn_onclick
                         (always (mkResponse true "%PDF-1.4" None))
                         (initial_page "" "")))
     = [("WattCompare_Report.pdf", "%PDF-1.4")].
Proof.
  split.
  - apply (export_download_only_on_success (always error_page)
             (initial_page "" "") error_page eq_refl).
    reflexivity.
  - destruct (export_download_only_on_success
                (always (mkResponse true "%PDF-1.4" None))
                (initial_page "" "") (mkResponse true "%PDF-1.4" None) eq_refl)
      as [_ Hok].
    destruct (Hok eq_refl) as [Hrun _]. rewrite Hrun. reflexivity.
Defined.

(* ------------------------------------------------------------------ *)
(** * Extraction *)

Lemma extraction_unfold (src : image_source) (b : blob) :
  extraction src (Some b)
  = (result <- sendBlobForOcr b ;; handleOcrResult result).
Proof. destruct src; reflexivity. Qed.

(** A handler leaves the page, and makes the requests, of the computation
    the exchange takes place in. *)
Lemma image_handler_final (src : image_source) (frame : option blob) net p :
  final (image_handler src frame net p) = final (extraction src frame net p).
Proof. destruct src; reflexivity. Qed.

Lemma image_handler_same_trace
      (src : image_source) (frame : option blob) net p :
  trace (image_handler src frame net p) = trace (extraction src frame net p).
Proof. destruct src; reflexivity. Qed.

Lemma sendBlobForOcr_resolved {C} (b : blob) (k : jsval -> M C) net p r v :
  net (ocr_request b) = Resolved r -> res_parsed r = Some v ->
  bind (sendBlobForOcr b) k net p
  = mkRun (EvFetch (ocr_request b) :: trace (k v net p)) (final (k v net p))
          (outcome (k v net p)).
Proof.
  intros Enet Ev.
  rewrite (bind_done (sendBlobForOcr b) k net p [EvFetch (ocr_request b)] p v);
    [reflexivity |].
  unfold sendBlobForOcr.
  rewrite (fetch_resolved _ _ net p r Enet).
  rewrite (res_json_parsed r _ net p v Ev). reflexivity.
Qed.

Lemma sendBlobForOcr_unparsed {C} (b : blob) (k : jsval -> M C) net p r :
  net (ocr_request b) = Resolved r -> res_parsed r = None ->
  bind (sendBlobForOcr b) k net p
  = mkRun [EvFetch (ocr_request b)] p (Throw SyntaxError).
Proof.
  intros Enet Ev. apply bind_throw. unfold sendBlobForOcr.
  rewrite (fetch_resolved _ _ net p r Enet).
  rewrite (res_json_unparsed r _ net p Ev). reflexivity.
Qed.

Lemma sendBlobForOcr_rejected {C} (b : blob) (k : jsval -> M C) net p :
  net (ocr_request b) = Rejected ->
  bind (sendBlobForOcr b) k net p
  = mkRun [EvFetch (ocr_request b)] p (Throw NetworkError).
Proof.
  intros Enet. apply bind_throw. unfold sendBlobForOcr.
  rewrite (fetch_rejected _ _ net p Enet). reflexivity.
Qed.

Lemma lift_done {A C} (r : result A) (k : A -> M C) net p a :
  r = Done a -> bind (lift r) k net p = k a net p.
Proof. intros E. apply bind_pure. rewrite E. reflexivity. Qed.

Lemma lift_throw {A C} (r : result A) (k : A -> M C) net p e :
  r = Throw e -> bind (lift r) k net p = mkRun [] p (Throw e).
Proof. intros E. apply bind_throw. rewrite E. reflexivity. Qed.

(** [handleOcrResult] on a truthy result whose reading converts to
    [shown]: the detected text is set, then the raw text if it converts. *)
Lemma handleOcrResult_shown (res : jsval) net p shown :
  truthy res = true ->
  to_text (js_coalesce (get_prop res "estimated_kwh_per_year")
                       (VPrim (PStr placeholder))) = Done shown ->
  handleOcrResult res net p
  = match to_text (raw_value res) with
    | Done text => mkRun [] (set_raw text (set_detected shown p)) (Done tt)
    | Throw e => mkRun [] (set_detected shown p) (Throw e)
    end.
Proof.
  intros Ht Hshown. unfold handleOcrResult. rewrite Ht. cbn [negb].
  pose proof (truthy_not_nullish res Ht) as Hn.
  rewrite (member_defined res _ _ net p Hn).
  rewrite (lift_done _ _ net p shown Hshown).
  rewrite (bind_done _ _ net p [] (set_detected shown p) tt eq_refl).
  rewrite (member_defined res _ _ net _ Hn). unfold raw_value.
  destruct (to_text (js_or (get_prop res "raw_text")
                           (of_option (JSON_stringify res))))
    as [text | e] eqn:Eraw.
  - reflexivity.
  - reflexivity.
Qed.

Lemma handleOcrResult_unshown (res : jsval) net p e :
  truthy res = true ->
  to_text (js_coalesce (get_prop res "estimated_kwh_per_year")
                       (VPrim (PStr placeholder))) = Throw e ->
  handleOcrResult res net p = mkRun [] p (Throw e).
Proof.
  intros Ht Hshown. unfold handleOcrResult. rewrite Ht. cbn [negb].
  pose proof (truthy_not_nullish res Ht) as Hn.
  rewrite (member_defined res _ _ net p Hn).
  apply (lift_throw _ _ net p e Hshown).
Qed.

Lemma handleOcrResult_falsy (res : jsval) net p :
  truthy res = false -> handleOcrResult res net p = mkRun [] p (Done tt).
Proof. intros Hf. unfold handleOcrResult. rewrite Hf. reflexivity. Qed.

Lemma missing_reading_shown (v : jsval) :
  nullish (get_prop v "estimated_kwh_per_year") = true ->
  to_text (js_coalesce (get_prop v "estimated_kwh_per_year")
                       (VPrim (PStr placeholder))) = Done placeholder.
Proof. intros H. unfold js_coalesce. rewrite H. reflexivity. Qed.

Lemma set_raw_same (p : page) : set_raw (raw p) p = p.
Proof. destruct p; reflexivity. Qed.

(** C8, as stated, fails: an answer that is not JSON, or no answer at all,
    ends the handler with an exception; nothing is shown, the detected text
    stays what it was.  A JSON body [null] is dropped just as silently. *)
Lemma extraction_failure_raises :
  (outcome (uploadInput_onchange (Some "jpeg") (always error_page)
              (initial_page "" "")) = Throw SyntaxError
   /\ detected (final (uploadInput_onchange (Some "jpeg") (always error_page)
                         (initial_page "" ""))) <> placeholder)
  /\ (outcome (uploadInput_onchange (Some "jpeg") offline
                 (initial_page "" "")) = Throw NetworkError
      /\ detected (final (uploadInput_onchange (Some "jpeg") offline
                            (initial_page "" ""))) <> placeholder)
  /\ detected (final (uploadInput_onchange (Some "jpeg")
                        (always (json_response true "null" (VPrim PNull)))
                        (initial_page "" ""))) <> placeholder.
Proof.
  repeat split; try reflexivity; vm_compute; discriminate.
Qed.

(** C8 (amended): for every extraction exchange whose answer, of whatever
    status, has a body that reads as a truthy JSON value, an absent or null
    [estimated_kwh_per_year] is shown as the placeholder: the missing field
    is never a failure, and the run ends normally whenever the raw text to
    show (the [raw_text] of the body if truthy, else the JSON text of the
    body) converts to a string.  An answer whose body is not JSON, or an
    exchange that fails, raises an exception and leaves the page untouched; a
    falsy JSON body is ignored and leaves the page untouched as well.  The
    exception leaves the upload handler; for a capture it stays in the
    callback of [toBlob], which nobody awaits, and the handler itself ends
    normally. *)
Theorem extraction_placeholder_for_missing_field
        (src : image_source) (b : blob) (net : network) (p : page) :
  (forall r v,
      net (ocr_request b) = Resolved r -> res_parsed r = Some v ->
      truthy v = true ->
      nullish (get_prop v "estimated_kwh_per_year") = true ->
      detected (final (image_handler src (Some b) net p)) = "—"
      /\ (forall text,
             to_text (raw_value v) = Done text ->
             outcome (extraction src (Some b) net p) = Done tt
             /\ final (image_handler src (Some b) net p)
                = set_raw text (set_detected "—" p)))
  /\ (forall r,
         net (ocr_request b) = Resolved r -> res_parsed r = None ->
         outcome (extraction src (Some b) net p) = Throw SyntaxError
         /\ final (image_handler src (Some b) net p) = p)
  /\ (net (ocr_request b) = Rejected ->
      outcome (extraction src (Some b) net p) = Throw NetworkError
      /\ final (image_handler src (Some b) net p) = p)
  /\ (forall r v,
         net (ocr_request b) = Resolved r -> res_parsed r = Some v ->
         truthy v = false ->
         outcome (extraction src (Some b) net p) = Done tt
         /\ final (image_handler src (Some b) net p) = p)
  /\ outcome (image_handler FromFile (Some b) net p)
     = outcome (extraction FromFile (Some b) net p)
  /\ outcome (image_handler FromCamera (Some b) net p) = Done tt.
Proof.
  rewrite image_handler_final, extraction_unfold.
  split; [| split; [| split; [| split; [| split]]]]; try reflexivity.
  - intros r v Enet Ev Ht Hmissing.
    rewrite (sendBlobForOcr_resolved b _ net p r v Enet Ev).
    rewrite (handleOcrResult_shown v net p placeholder Ht
               (missing_reading_shown v Hmissing)).
    split.
    + destruct (to_text (raw_value v)); reflexivity.
    + intros text Htext. rewrite Htext. split; reflexivity.
  - intros r Enet Ev.
    rewrite (sendBlobForOcr_unparsed b _ net p r Enet Ev). split; reflexivity.
  - intros Enet.
    rewrite (sendBlobForOcr_rejected b _ net p Enet). split; reflexivity.
  - intros r v Enet Ev Hf.
    rewrite (sendBlobForOcr_resolved b _ net p r v Enet Ev).
    rewrite (handleOcrResult_falsy v net p Hf). split; reflexivity.
Qed.

Lemma extraction_placeholder_for_missing_field_witness :
  detected (final (image_handler FromCamera (Some "jpeg")
                     (always (json_response false "" no_reading))
                     (initial_page "" ""))) = "—"
  /\ outcome (extraction FromFile (Some "jpeg")
                (always (json_response false "" no_reading))
                (initial_page "" "")) = Done tt
  /\ outcome (extraction FromCamera (Some "jpeg") (always error_page)
                (initial_page "" "")) = Throw SyntaxError
  /\ outcome (extraction FromFile (Some "jpeg") offline
                (initial_page "" "")) = Throw NetworkError.
Proof.
  destruct (extraction_placeholder_for_missing_field FromCamera "jpeg"
              (always (json_response false "" no_reading))
              (initial_page "" "")) as [Hshown _].
  destruct (extraction_placeholder_for_missing_field FromFile "jpeg"
              (always (json_response false "" no_reading))
              (initial_page "" "")) as [Hfile _].
  destruct (extraction_placeholder_for_missing_field FromCamera "jpeg"
              (always error_page) (initial_page "" "")) as [_ [Hraw _]].
  destruct (extraction_placeholder_for_missing_field FromFile "jpeg"
              offline (initial_page "" "")) as [_ [_ [Hoff _]]].
  split; [| split; [| split]].
  - apply (Hshown (json_response false "" no_reading) no_reading
             eq_refl eq_refl eq_refl eq_refl).
  - destruct (Hfile (json_response false "" no_reading) no_reading
                eq_refl eq_refl eq_refl eq_refl) as [_ Hends].
    apply (Hends _ eq_refl).
  - apply (Hraw error_page eq_refl eq_refl).
  - apply (Hoff eq_refl).
Defined.

(** The sample label: the reading is shown as it is. *)
Example extraction_shows_reading :
  detected (final (uploadInput_onchange (Some "jpeg")
                     (always (json_response true "" label_350))
                     (initial_page "" ""))) = "350".
Proof. reflexivity. Qed.

(** C10: after an extraction answer without [estimated_kwh_per_year] the
    detected text is the placeholder, which is not empty; an Add with an empty
    manual entry then resolves the annual energy consumption to the
    placeholder, is not stopped by the validation, and sends the placeholder
    to the backend in the field [aec]. *)
Theorem placeholder_is_submitted_as_aec
        (src : image_source) (b : blob) (net1 net2 : network) (p : page)
        (r : response) (v : jsval) :
  net1 (ocr_request b) = Resolved r -> res_parsed r = Some v ->
  truthy v = true ->
  get_prop v "estimated_kwh_per_year" = undefined ->
  in_manualAec p = "" ->
  detected (final (image_handler src (Some b) net1 p)) = "—"
  /\ "—" <> ""
  /\ resolved_aec (final (image_handler src (Some b) net1 p)) = "—"
  /\ (exists rest,
         trace (saveBtn_onclick net2 (final (image_handler src (Some b) net1 p)))
         = EvFetch (add_request_of p "—") :: rest)
  /\ saveBtn_onclick net2 (final (image_handler src (Some b) net1 p))
     <> mkRun [EvAlert "Please provide AEC (detected or manual)"]
              (final (image_handler src (Some b) net1 p)) (Done tt).
Proof.
  intros Enet Ev Ht Hmissing Hmanual.
  set (p1 := final (image_handler src (Some b) net1 p)).
  assert (Hp1 : exists text, p1 = set_raw text (set_detected "—" p)).
  { unfold p1. rewrite image_handler_final, extraction_unfold.
    rewrite (sendBlobForOcr_resolved b _ net1 p r v Enet Ev).
    rewrite (handleOcrResult_shown v net1 p placeholder Ht).
    2:{ apply missing_reading_shown. rewrite Hmissing. reflexivity. }
    destruct (to_text (raw_value v)) as [text | e]; cbn [final].
    - exists text. reflexivity.
    - exists (raw p). symmetry. apply (set_raw_same (set_detected "—" p)). }
  destruct Hp1 as [text Hp1].
  assert (Hdet : detected p1 = "—") by (rewrite Hp1; reflexivity).
  assert (Hres : resolved_aec p1 = "—").
  { unfold resolved_aec. rewrite Hp1.
    cbn [in_manualAec detected set_raw set_detected].
    rewrite Hmanual. reflexivity. }
  assert (Hreq : add_request_of p1 "—" = add_request_of p "—")
    by (rewrite Hp1; reflexivity).
  assert (Hsend : exists rest,
             trace (saveBtn_onclick net2 p1)
             = EvFetch (add_request_of p "—") :: rest).
  { rewrite <- Hreq, <- Hres. apply save_first_effect.
    rewrite Hres. reflexivity. }
  split; [exact Hdet |].
  split; [discriminate |].
  split; [exact Hres |].
  split; [exact Hsend |].
  intros Hrun. destruct Hsend as [rest Htr].
  rewrite Hrun in Htr. discriminate Htr.
Qed.

Lemma placeholder_is_submitted_as_aec_witness :
  exists rest,
    trace (saveBtn_onclick offline
             (final (image_handler FromCamera (Some "jpeg")
                       (always (json_response false "" no_reading))
                       (initial_page "" ""))))
    = EvFetch (add_request "Unnamed" "0" "0" "—") :: rest.
Proof.
  destruct (placeholder_is_submitted_as_aec FromCamera "jpeg"
              (always (json_response false "" no_reading)) offline
              (initial_page "" "") (json_response false "" no_reading)
              no_reading eq_refl eq_refl eq_refl eq_refl eq_refl)
    as [_ [_ [_ [Hsend _]]]].
  exact Hsend.
Defined.

(* ------------------------------------------------------------------ *)
(** * Computations without visible effects *)

Lemma quiet_ret {A} (a : A) : quiet (ret a).
Proof. intros net p; reflexivity. Qed.

Lemma quiet_throw {A} (e : exn) : quiet (@throw A e).
Proof. intros net p; reflexivity. Qed.

Lemma quiet_get_page : quiet get_page.
Proof. intros net p; reflexivity. Qed.

Lemma quiet_update (f : page -> page) : quiet (update f).
Proof. intros net p; reflexivity. Qed.

Lemma quiet_bind {A C} (m : M A) (k : A -> M C) :
  quiet m -> (forall a, quiet (k a)) -> quiet (bind m k).
Proof.
  intros Hm Hk net p. unfold bind.
  destruct (outcome (m net p)) as [a | e]; cbn [trace].
  - rewrite Hm, Hk. reflexivity.
  - apply Hm.
Qed.

Lemma quiet_detach (m : M unit) : quiet m -> quiet (detach m).
Proof. intros Hm net p; apply Hm. Qed.

Lemma quiet_then_settle {A} (m : M A) (later : M unit) :
  quiet m -> quiet later -> quiet (then_settle m later).
Proof.
  intros Hm Hl net p. unfold then_settle, detach. cbn [trace].
  rewrite Hm, Hl. reflexivity.
Qed.

Lemma quiet_for_each {A} (f : nat -> A -> M unit) (l : list A) :
  (forall i x, quiet (f i x)) -> forall i, quiet (for_each f i l).
Proof.
  intros Hf. induction l as [| x t IH]; intros i; cbn.
  - apply quiet_ret.
  - apply quiet_bind; [apply Hf | intros _; apply IH].
Qed.

Lemma quiet_fetch_settle (rq : request) : quiet (fetch_settle rq).
Proof. intros net p. unfold fetch_settle. destruct (net rq); reflexivity. Qed.

Lemma quiet_res_json (r : response) : quiet (res_json r).
Proof.
  unfold res_json. destruct (res_parsed r); [apply quiet_ret | apply quiet_throw].
Qed.

Lemma quiet_member (v : jsval) (k : string) : quiet (member v k).
Proof.
  unfold member. destruct (nullish v); [apply quiet_throw | apply quiet_ret].
Qed.

Lemma quiet_lift {A} (r : result A) : quiet (lift r).
Proof. destruct r; [apply quiet_ret | apply quiet_throw]. Qed.

Lemma quiet_js_index (v : jsval) (i : nat) : quiet (js_index v i).
Proof.
  destruct v as [[| | b | n | m d | neg | s] | l | ps]; cbn;
    first [apply quiet_throw | apply quiet_ret].
Qed.
Lemma renderList_quiet : quiet renderList.
Proof.
  unfold renderList.
  apply quiet_bind; [apply quiet_update | intros _].
  apply quiet_bind; [apply quiet_get_page | intros p].
  destruct (appliances p); try apply quiet_throw.
  apply quiet_for_each. intros i a.
  repeat (apply quiet_bind; [apply quiet_member | intro]).
  apply quiet_bind; [apply quiet_lift | intros markup].
  apply quiet_update.
Qed.

Lemma fetchList_resume_quiet : quiet fetchList_resume.
Proof.
  unfold fetchList_resume.
  apply quiet_bind; [apply quiet_fetch_settle | intros res].
  apply quiet_bind; [apply quiet_res_json | intros data].
  apply quiet_bind; [apply quiet_update | intros _].
  apply renderList_quiet.
Qed.

Lemma highlightSelected_quiet : quiet highlightSelected.
Proof.
  unfold highlightSelected.
  apply quiet_bind; [apply quiet_get_page | intros p].
  apply quiet_for_each; intros idx el.
  apply quiet_bind; [apply quiet_get_page | intros q].
  apply quiet_bind; [apply quiet_js_index | intros a].
  destruct (negb (truthy a)); [apply quiet_ret |].
  apply quiet_bind; [apply quiet_member | intros id].
  apply quiet_update.
Qed.

Lemma handleOcrResult_quiet (res : jsval) : quiet (handleOcrResult res).
Proof.
  unfold handleOcrResult. destruct (negb (truthy res)); [apply quiet_ret |].
  apply quiet_bind; [apply quiet_member | intros kwh].
  apply quiet_bind; [apply quiet_lift | intros shown].
  apply quiet_bind; [apply quiet_update | intros _].
  apply quiet_bind; [apply quiet_member | intros raw_text].
  apply quiet_bind; [apply quiet_lift | intros text].
  apply quiet_update.
Qed.

Lemma fetchList_trace (net : network) (p : page) :
  trace (fetchList net p) = [EvFetch list_request].
Proof.
  unfold fetchList.
  rewrite (bind_done (fetch_send list_request) _ net p
             [EvFetch list_request] p tt eq_refl).
  cbn [trace]. rewrite fetchList_resume_quiet. reflexivity.
Qed.

(* ------------------------------------------------------------------ *)
(** * The appliance list *)

Lemma set_listEl_same (p : page) : set_listEl (listEl p) p = p.
Proof. destruct p; reflexivity. Qed.

Lemma set_listEl_twice (l l' : list item) (p : page) :
  set_listEl l (set_listEl l' p) = set_listEl l p.
Proof. reflexivity. Qed.

(** The template of a row goes through exactly for the records that
    render. *)
Lemma item_html_cases (a : jsval) :
  item_html (get_prop a "name") (get_prop a "energy_kwh") (get_prop a "price")
  = if (negb (truthy (get_prop a "name")) || printable (get_prop a "name"))
       && printable (get_prop a "energy_kwh")
       && printable (get_prop a "price")
    then Done (item_markup (row_of a))
    else Throw TypeError.
Proof.
  unfold row_of, item_html, escapeHtml, to_string. cbn [item_markup].
  destruct (truthy (get_prop a "name")), (printable (get_prop a "name")),
    (printable (get_prop a "energy_kwh")), (printable (get_prop a "price"));
    reflexivity.
Qed.

(** The loop of [renderList] over the records [l]. *)
Lemma render_loop (l : list jsval) :
  forall (i : nat) (net : network) (p : page),
    for_each (fun (_ : nat) (a : jsval) =>
                name <- member a "name" ;;
                kwh <- member a "energy_kwh" ;;
                price <- member a "price" ;;
                markup <- lift (item_html name kwh price) ;;
                update (fun q =>
                          set_listEl (listEl q ++ [mkItem a markup false]) q))
             i l net p
    = mkRun [] (set_listEl (listEl p ++ rendered l) p)
            (if all_records l then Done tt else Throw TypeError).
Proof.
  induction l as [| a t IH]; intros i net p.
  - cbn. rewrite app_nil_r, set_listEl_same. reflexivity.
  - cbn [for_each rendered all_records forallb]. unfold renders.
    destruct (nullish a) eqn:Ha; cbn [negb andb].
    + rewrite app_nil_r, set_listEl_same.
      apply bind_throw. apply member_nullish. exact Ha.
    + pose proof (item_html_cases a) as Hrow.
      destruct ((negb (truthy (get_prop a "name"))
                 || printable (get_prop a "name"))
                && printable (get_prop a "energy_kwh")
                && printable (get_prop a "price")) eqn:Hok.
      * set (q := set_listEl (listEl p ++ [row_of a]) p).
        rewrite (bind_done _ _ net p [] q tt).
        -- rewrite IH. cbn [trace final outcome app]. unfold q.
           cbn [listEl set_listEl]. rewrite <- app_assoc. reflexivity.
        -- rewrite !(member_defined a _ _ net p Ha).
           rewrite (lift_done _ _ net p _ Hrow). destruct a; reflexivity.
      * rewrite app_nil_r, set_listEl_same. apply bind_throw.
        rewrite !(member_defined a _ _ net p Ha).
        apply (lift_throw _ _ net p _ Hrow).
Qed.

Lemma renderList_array (l : list jsval) (net : network) (p : page) :
  appliances p = VArr l ->
  renderList net p
  = mkRun [] (set_listEl (rendered l) p)
          (if all_records l then Done tt else Throw TypeError).
Proof.
  intros Hp. unfold renderList.
  rewrite (bind_done _ _ net p [] (set_listEl [] p) tt eq_refl).
  rewrite (bind_pure get_page _ net (set_listEl [] p) _ eq_refl).
  cbn [appliances set_listEl]. rewrite Hp.
  rewrite render_loop. reflexivity.
Qed.

Lemma renderList_not_array (net : network) (p : page) :
  is_array (appliances p) = false ->
  renderList net p = mkRun [] (set_listEl [] p) (Throw TypeError).
Proof.
  intros Hp. unfold renderList.
  rewrite (bind_done _ _ net p [] (set_listEl [] p) tt eq_refl).
  rewrite (bind_pure get_page _ net (set_listEl [] p) _ eq_refl).
  cbn [appliances set_listEl].
  destruct (appliances p); try reflexivity. discriminate Hp.
Qed.

Lemma fetchList_resume_parsed (net : network) (p : page) r data :
  net list_request = Resolved r -> res_parsed r = Some data ->
  fetchList_resume net p = renderList net (set_appliances data p).
Proof.
  intros Enet Ev. unfold fetchList_resume.
  rewrite (bind_pure (fetch_settle list_request) _ net p r).
  2:{ unfold fetch_settle. rewrite Enet. reflexivity. }
  rewrite (res_json_parsed r _ net p data Ev).
  rewrite (bind_done _ _ net p [] (set_appliances data p) tt eq_refl).
  cbn [app]. apply run_eta.
Qed.

Lemma fetchList_resume_unparsed (net : network) (p : page) r :
  net list_request = Resolved r -> res_parsed r = None ->
  fetchList_resume net p = mkRun [] p (Throw SyntaxError).
Proof.
  intros Enet Ev. unfold fetchList_resume.
  rewrite (bind_pure (fetch_settle list_request) _ net p r).
  2:{ unfold fetch_settle. rewrite Enet. reflexivity. }
  apply (res_json_unparsed r _ net p Ev).
Qed.

Lemma fetchList_resume_rejected (net : network) (p : page) :
  net list_request = Rejected ->
  fetchList_resume net p = mkRun [] p (Throw NetworkError).
Proof.
  intros Enet. unfold fetchList_resume. apply bind_throw.
  unfold fetch_settle. rewrite Enet. reflexivity.
Qed.

Lemma fetchList_split (net : network) (p : page) :
  fetchList net p
  = mkRun (EvFetch list_request :: trace (fetchList_resume net p))
          (final (fetchList_resume net p))
          (outcome (fetchList_resume net p)).
Proof.
  unfold fetchList.
  rewrite (bind_done (fetch_send list_request) _ net p
             [EvFetch list_request] p tt eq_refl).
  reflexivity.
Qed.

Lemma rendered_unlit (l : list jsval) : unlit (rendered l) = true.
Proof.
  unfold unlit. induction l as [| a t IH]; cbn; [reflexivity |].
  destruct (renders a); cbn; [exact IH | reflexivity].
Qed.

Lemma fetchList_array (net : network) (p : page) (r : response)
      (l : list jsval) :
  net list_request = Resolved r ->
  res_parsed r = Some (VArr l) ->
  fetchList net p
  = mkRun [EvFetch list_request]
          (set_listEl (rendered l) (set_appliances (VArr l) p))
          (if all_records l then Done tt else Throw TypeError).
Proof.
  intros Enet Ev. rewrite fetchList_split.
  rewrite (fetchList_resume_parsed net p r (VArr l) Enet Ev).
  rewrite (renderList_array l net (set_appliances (VArr l) p) eq_refl).
  reflexivity.
Qed.

Lemma rendered_is_prefix (l : list jsval) :
  exists rest, l = (map item_record (rendered l) ++ rest)%list.
Proof.
  induction l as [| a t [rest IH]]; cbn.
  - exists []. reflexivity.
  - destruct (renders a).
    + exists rest. cbn. rewrite <- IH. reflexivity.
    + exists (a :: t). reflexivity.
Qed.

Lemma rendered_before (before after : list jsval) (a : jsval) :
  renders a = false ->
  all_records (before ++ a :: after) = false
  /\ exists rest,
      before
      = (map item_record (rendered (before ++ a :: after)) ++ rest)%list.
Proof.
  intros Ha. unfold all_records.
  induction before as [| b t [IHall [rest IH]]]; cbn [app rendered forallb].
  - rewrite Ha. split; [reflexivity |]. exists []. reflexivity.
  - destruct (renders b); cbn [andb].
    + split; [exact IHall |]. exists rest. cbn [map app item_record row_of].
      rewrite <- IH. reflexivity.
    + split; [reflexivity |]. exists (b :: t). reflexivity.
Qed.



(** X4: an answer to the list exchange that is JSON but not an array still
    overwrites the cache, empties the rows and ends in a TypeError; an
    answer that is not JSON, or an exchange that fails, ends in an exception
    and leaves the page as it was. *)
Theorem fetchList_failures (net : network) (p : page) :
  (forall r data,
      net list_request = Resolved r -> res_parsed r = Some data ->
      is_array data = false ->
      fetchList net p
      = mkRun [EvFetch list_request]
              (set_listEl [] (set_appliances data p)) (Throw TypeError))
  /\ (forall r,
         net list_request = Resolved r -> res_parsed r = None ->
         fetchList net p
         = mkRun [EvFetch list_request] p (Throw SyntaxError))
  /\ (net list_request = Rejected ->
      fetchList net p = mkRun [EvFetch list_request] p (Throw NetworkError)).
Proof.
  split; [| split].
  - intros r data Enet Ev Hdata. rewrite fetchList_split.
    rewrite (fetchList_resume_parsed net p r data Enet Ev).
    rewrite (renderList_not_array net (set_appliances data p) Hdata).
    reflexivity.
  - intros r Enet Ev. rewrite fetchList_split.
    rewrite (fetchList_resume_unparsed net p r Enet Ev). reflexivity.
  - intros Enet. rewrite fetchList_split.
    rewrite (fetchList_resume_rejected net p Enet). reflexivity.
Qed.

Lemma fetchList_failures_witness :
  appliances (final (fetchList (always (json_response false "" no_reading))
                       page_A1)) = no_reading
  /\ fetchList (always error_page) page_A1
     = mkRun [EvFetch list_request] page_A1 (Throw SyntaxError)
  /\ fetchList offline page_A1
     = mkRun [EvFetch list_request] page_A1 (Throw NetworkError).
Proof.
  destruct (fetchList_failures (always (json_response false "" no_reading))
              page_A1) as [Hobj _].
  destruct (fetchList_failures (always error_page) page_A1) as [_ [Hraw _]].
  destruct (fetchList_failures offline page_A1) as [_ [_ Hoff]].
  split; [| split].
  - rewrite (Hobj (json_response false "" no_reading) no_reading
               eq_refl eq_refl eq_refl).
    reflexivity.
  - apply (Hraw error_page eq_refl eq_refl).
  - apply (Hoff eq_refl).
Defined.

(** X5: when a record of the answered array is [null], the run ends in a
    TypeError and no row is built for that record or for any record after
    it: the rows stand, in order, for records before it; the cache holds the
    whole array all the same. *)
Theorem fetchList_stops_at_null_record
        (net : network) (p : page) (r : response)
        (before after : list jsval) :
  net list_request = Resolved r ->
  res_parsed r = Some (VArr (before ++ VPrim PNull :: after)) ->
  outcome (fetchList net p) = Throw TypeError
  /\ exists rows rest,
      final (fetchList net p)
      = set_listEl rows
          (set_appliances (VArr (before ++ VPrim PNull :: after)) p)
      /\ before = (map item_record rows ++ rest)%list.
Proof.
  intros Enet Ev. rewrite (fetchList_array net p r _ Enet Ev).
  destruct (rendered_before before after (VPrim PNull) eq_refl)
    as [Hnot [rest Hrest]].
  rewrite Hnot. split; [reflexivity |].
  exists (rendered (before ++ VPrim PNull :: after)), rest.
  split; [reflexivity | exact Hrest].
Qed.

Lemma fetchList_stops_at_null_record_witness :
  outcome (fetchList
             (always (json_response true ""
                        (VArr [label_350; VPrim PNull; no_reading])))
             page_A1)
  = Throw TypeError.
Proof.
  apply (fetchList_stops_at_null_record
           (always (json_response true ""
                      (VArr [label_350; VPrim PNull; no_reading])))
           page_A1
           (json_response true "" (VArr [label_350; VPrim PNull; no_reading]))
           [label_350] [no_reading] eq_refl eq_refl).
Defined.

(** X6: a run of [fetchList] makes exactly one request, the read of the
    list, and nothing else that is visible (no alert, no download), whatever
    the backend answers and whatever the page holds. *)
Theorem fetchList_one_request (net : network) (p : page) :
  trace (fetchList net p) = [EvFetch list_request].
Proof. apply fetchList_trace. Qed.

(* ------------------------------------------------------------------ *)
(** * Highlighting *)

Lemma set_highlit_at (pre suf : list item) (x : item) (b : bool) :
  set_highlit (List.length pre) b (pre ++ x :: suf)
  = (pre ++ mkItem (item_record x) (item_markup x) b :: suf)%list.
Proof.
  induction pre as [| y t IH]; cbn; [reflexivity |].
  rewrite IH. reflexivity.
Qed.

Lemma nth_record_at (pre suf : list item) (x : item) (rest : list jsval) :
  nth (List.length pre) (map item_record (pre ++ x :: suf) ++ rest) undefined
  = item_record x.
Proof. induction pre as [| y t IH]; cbn; [reflexivity | exact IH]. Qed.

Lemma highlight_row_record (sel : list prim) (it : item) :
  item_record (highlight_row sel it) = item_record it.
Proof. unfold highlight_row. destruct (truthy (item_record it)); reflexivity. Qed.

Lemma map_record_highlight (sel : list prim) (rows : list item) :
  map item_record (map (highlight_row sel) rows) = map item_record rows.
Proof.
  induction rows as [| x t IH]; cbn; [reflexivity |].
  rewrite highlight_row_record, IH. reflexivity.
Qed.

(** The loop of [highlightSelected] once the rows [pre] are done and the
    rows [suf] are still to do. *)
Lemma highlight_loop (suf : list item) :
  forall (pre : list item) (rest : list jsval) (net : network) (q : page),
    appliances q = VArr (map item_record (pre ++ suf) ++ rest) ->
    listEl q = (map (highlight_row (selectedForCompare q)) pre ++ suf)%list ->
    for_each (fun (idx : nat) (_ : item) =>
                q0 <- get_page ;;
                a <- js_index (appliances q0) idx ;;
                if negb (truthy a) then ret tt
                else
                  id <- member a "id" ;;
                  update (fun q' =>
                            set_listEl
                              (set_highlit idx
                                 (includes (selectedForCompare q') id)
                                 (listEl q')) q'))
             (List.length pre) suf net q
    = mkRun []
            (set_listEl
               (map (highlight_row (selectedForCompare q)) (pre ++ suf)) q)
            (Done tt).
Proof.
  induction suf as [| x t IH]; intros pre rest net q Happ Hrows.
  - cbn [for_each]. rewrite app_nil_r in *.
    rewrite <- Hrows, set_listEl_same. reflexivity.
  - cbn [for_each].
    set (sel := selectedForCompare q) in *.
    set (q1 := set_listEl (map (highlight_row sel) (pre ++ [x]) ++ t) q).
    assert (Hstep :
              (q0 <- get_page ;;
               a <- js_index (appliances q0) (List.length pre) ;;
               if negb (truthy a) then ret tt
               else
                 id <- member a "id" ;;
                 update (fun q' =>
                           set_listEl
                             (set_highlit (List.length pre)
                                (includes (selectedForCompare q') id)
                                (listEl q')) q')) net q
              = mkRun [] q1 (Done tt)).
    { rewrite (bind_pure get_page _ net q q eq_refl).
      rewrite (bind_pure (js_index (appliances q) (List.length pre)) _ net q
                 (item_record x)).
      2:{ rewrite Happ. cbn [js_index]. rewrite nth_record_at. reflexivity. }
      unfold q1. rewrite map_app. cbn [map]. unfold highlight_row at 2.
      destruct (truthy (item_record x)) eqn:Hx; cbn [negb].
      - rewrite (member_defined _ _ _ net q (truthy_not_nullish _ Hx)).
        unfold update. cbv beta. fold sel. rewrite Hrows.
        rewrite <- (length_map (highlight_row sel) pre) at 1.
        rewrite set_highlit_at, <- app_assoc. reflexivity.
      - cbn [ret]. rewrite <- app_assoc. cbn [app].
        rewrite <- Hrows, set_listEl_same. reflexivity. }
    rewrite (bind_done _ _ net q [] q1 tt Hstep).
    replace (S (List.length pre)) with (List.length (pre ++ [x])%list)
      by (rewrite length_app; cbn; lia).
    rewrite (IH (pre ++ [x])%list rest net q1).
    + cbn [trace final outcome app]. unfold q1.
      cbn [selectedForCompare set_listEl]. fold sel.
      rewrite <- app_assoc. reflexivity.
    + unfold q1. cbn [appliances set_listEl].
      rewrite <- app_assoc. exact Happ.
    + unfold q1. cbn [selectedForCompare listEl set_listEl]. reflexivity.
Qed.

Lemma highlightSelected_in_step (net : network) (p : page) :
  rows_in_step p ->
  highlightSelected net p
  = mkRun []
          (set_listEl
             (map (highlight_row (selectedForCompare p)) (listEl p)) p)
          (Done tt).
Proof.
  intros Hstep. unfold highlightSelected.
  rewrite (bind_pure get_page _ net p p eq_refl).
  destruct Hstep as [Hnone | [rest Happ]].
  - rewrite Hnone. cbn [for_each map ret]. rewrite <- Hnone at 1.
    rewrite set_listEl_same. reflexivity.
  - apply (highlight_loop (listEl p) [] rest net p); [exact Happ | reflexivity].
Qed.

(** X7: on a page whose rows stand for the first records of the cache (or
    that has no rows), [highlightSelected] ends normally and marks exactly
    the rows whose record has its [id] in one of the two slots; rows of a
    falsy record keep their mark; records, markup and the rest of the page
    stay as they are. *)
Theorem highlightSelected_marks_selected (net : network) (p : page) :
  rows_in_step p ->
  highlightSelected net p
  = mkRun []
          (set_listEl
             (map (highlight_row (selectedForCompare p)) (listEl p)) p)
          (Done tt).
Proof. apply highlightSelected_in_step. Qed.

Lemma highlightSelected_marks_selected_witness :
  map item_highlit (listEl (final (highlightSelected offline page_listed)))
  = [true; false].
Proof.
  rewrite (highlightSelected_marks_selected offline page_listed).
  - reflexivity.
  - right. exists []. reflexivity.
Defined.

(* ------------------------------------------------------------------ *)
(** * A toggle as a whole *)

Lemma toggleSlot_unfold (i : nat) (id : prim) (net : network) (p : page) :
  toggleSlot i id net p
  = mkRun (EvFetch list_request
             :: trace (highlightSelected net (with_toggled i id p))
             ++ trace (fetchList_resume net
                         (final (highlightSelected net (with_toggled i id p)))))
          (final (fetchList_resume net
                    (final (highlightSelected net (with_toggled i id p)))))
          (outcome (highlightSelected net (with_toggled i id p))).
Proof.
  unfold toggleSlot.
  rewrite (bind_pure get_page _ net p p eq_refl).
  rewrite (bind_done _ _ net p [] (with_toggled i id p) tt).
  2:{ unfold with_toggled, toggled, set_selected.
      destruct (strict_eq (array_get (selectedForCompare p) i) id);
        reflexivity. }
  rewrite (bind_done (fetch_send list_request) _ net (with_toggled i id p)
             [EvFetch list_request] (with_toggled i id p) tt eq_refl).
  reflexivity.
Qed.

(** X8: every toggle makes exactly one request, the read of the list, and
    shows no alert, whatever the slot, the identifier, the page and the
    answer of the backend. *)
Theorem toggleSlot_one_request
        (i : nat) (id : prim) (net : network) (p : page) :
  trace (toggleSlot i id net p) = [EvFetch list_request].
Proof.
  rewrite toggleSlot_unfold. cbn [trace].
  rewrite highlightSelected_quiet, fetchList_resume_quiet. reflexivity.
Qed.

Lemma renderList_unlit (net : network) (p : page) :
  unlit (listEl (final (renderList net p))) = true.
Proof.
  destruct (appliances p) as [q | l | ps] eqn:Hp.
  - rewrite renderList_not_array by (rewrite Hp; reflexivity). reflexivity.
  - rewrite (renderList_array l net p Hp). apply rendered_unlit.
  - rewrite renderList_not_array by (rewrite Hp; reflexivity). reflexivity.
Qed.

(** X9: when the list read that a toggle sets off is answered with any JSON
    body, the rows are built anew after the highlighting has run, so once
    the toggle is over no row is highlighted, whatever the two slots hold. *)
Theorem toggleSlot_answered_leaves_no_highlight
        (i : nat) (id : prim) (net : network) (p : page)
        (r : response) (data : jsval) :
  net list_request = Resolved r ->
  res_parsed r = Some data ->
  unlit (listEl (final (toggleSlot i id net p))) = true.
Proof.
  intros Enet Ev. rewrite toggleSlot_unfold. cbn [final].
  rewrite (fetchList_resume_parsed net _ r data Enet Ev).
  apply renderList_unlit.
Qed.

Lemma toggleSlot_answered_leaves_no_highlight_witness :
  selectedForCompare
    (final (toggleSlot 1 (PNum 2)
              (always (json_response true "" two_appliances)) page_listed))
  = [PNum 1; PNum 2]
  /\ unlit (listEl (final (toggleSlot 1 (PNum 2)
                             (always (json_response true "" two_appliances))
                             page_listed)))
     = true.
Proof.
  split; [reflexivity |].
  apply (toggleSlot_answered_leaves_no_highlight 1 (PNum 2)
           (always (json_response true "" two_appliances)) page_listed
           (json_response true "" two_appliances) two_appliances
           eq_refl eq_refl).
Defined.

(** X10: when the list read that a toggle sets off fails, or is answered
    with a body that is not JSON, the rows stay as [highlightSelected] left
    them: on a page whose rows stand for the cached records, exactly the
    rows whose record id is in one of the slots after the toggle are
    highlighted. *)
Theorem toggleSlot_unanswered_keeps_highlight
        (i : nat) (id : prim) (net : network) (p : page) :
  rows_in_step p ->
  (net list_request = Rejected
   \/ exists r, net list_request = Resolved r /\ res_parsed r = None) ->
  final (toggleSlot i id net p)
  = set_listEl
      (map (highlight_row (toggled (selectedForCompare p) i id)) (listEl p))
      (with_toggled i id p).
Proof.
  intros Hstep Hnet. rewrite toggleSlot_unfold. cbn [final].
  rewrite (highlightSelected_in_step net (with_toggled i id p)) by exact Hstep.
  cbn [final].
  destruct Hnet as [Enet | [r [Enet Ev]]].
  - rewrite (fetchList_resume_rejected net _ Enet). reflexivity.
  - rewrite (fetchList_resume_unparsed net _ r Enet Ev). reflexivity.
Qed.

Lemma toggleSlot_unanswered_keeps_highlight_witness :
  map item_highlit
      (listEl (final (toggleSlot 1 (PNum 2) offline page_listed)))
  = [true; true].
Proof.
  rewrite (toggleSlot_unanswered_keeps_highlight 1 (PNum 2) offline
             page_listed).
  - reflexivity.
  - right. exists []. reflexivity.
  - left. reflexivity.
Defined.

(* ------------------------------------------------------------------ *)
(** * Invariants of a session *)

Section Stable.
Context (P : page -> Prop).

Lemma stable_ret {A} (a : A) : stable P (ret a).
Proof. intros net p Hp; exact Hp. Qed.

Lemma stable_throw {A} (e : exn) : stable P (@throw A e).
Proof. intros net p Hp; exact Hp. Qed.

Lemma stable_emit (e : event) : stable P (emit e).
Proof. intros net p Hp; exact Hp. Qed.

Lemma stable_get_page : stable P get_page.
Proof. intros net p Hp; exact Hp. Qed.

Lemma stable_update (f : page -> page) :
  (forall p, P p -> P (f p)) -> stable P (update f).
Proof. intros Hf net p Hp; apply Hf, Hp. Qed.

Lemma stable_bind {A C} (m : M A) (k : A -> M C) :
  stable P m -> (forall a, stable P (k a)) -> stable P (bind m k).
Proof.
  intros Hm Hk net p Hp. unfold bind.
  destruct (outcome (m net p)) as [a | e]; cbn [final].
  - apply Hk, Hm, Hp.
  - apply Hm, Hp.
Qed.

Lemma stable_detach (m : M unit) : stable P m -> stable P (detach m).
Proof. intros Hm net p Hp; apply Hm, Hp. Qed.

Lemma stable_then_settle {A} (m : M A) (later : M unit) :
  stable P m -> stable P later -> stable P (then_settle m later).
Proof. intros Hm Hl net p Hp. apply Hl, Hm, Hp. Qed.

Lemma stable_fetch (rq : request) : stable P (fetch rq).
Proof.
  intros net p Hp. rewrite fetch_run. destruct (net rq); exact Hp.
Qed.

Lemma stable_res_json (r : response) : stable P (res_json r).
Proof.
  unfold res_json. destruct (res_parsed r); [apply stable_ret | apply stable_throw].
Qed.

Lemma stable_lift {A} (r : result A) : stable P (lift r).
Proof. destruct r; [apply stable_ret | apply stable_throw]. Qed.

Lemma stable_member (v : jsval) (k : string) : stable P (member v k).
Proof.
  unfold member. destruct (nullish v); [apply stable_throw | apply stable_ret].
Qed.

(** Handlers built around steps that are stable are stable, as soon as the
    list read and the writes they make are. *)
Hypothesis P_fetchList : stable P fetchList.
Hypothesis P_detected : forall s p, P p -> P (set_detected s p).
Hypothesis P_raw : forall s p, P p -> P (set_raw s p).
Hypothesis P_compareResult : forall s p, P p -> P (set_compareResult s p).
Hypothesis P_inputs :
  forall name price rate manual p,
    P p -> P (type_inputs name price rate manual p).

Lemma stable_handleOcrResult (res : jsval) : stable P (handleOcrResult res).
Proof.
  unfold handleOcrResult. destruct (negb (truthy res)); [apply stable_ret |].
  apply stable_bind; [apply stable_member | intros kwh].
  apply stable_bind; [apply stable_lift | intros shown].
  apply stable_bind; [apply stable_update, P_detected | intros _].
  apply stable_bind; [apply stable_member | intros raw_text].
  apply stable_bind; [apply stable_lift | intros text].
  apply stable_update, P_raw.
Qed.

Lemma stable_image (frame : option blob) : stable P (uploadInput_onchange frame).
Proof.
  destruct frame as [b |]; cbn; [| apply stable_ret].
  apply stable_bind; [| intros res; apply stable_handleOcrResult].
  unfold sendBlobForOcr.
  apply stable_bind; [apply stable_fetch | intros res].
  apply stable_bind; [apply stable_res_json | intros json].
  apply stable_ret.
Qed.

Lemma stable_capture (frame : option blob) : stable P (captureBtn_onclick frame).
Proof. apply stable_detach, (stable_image frame). Qed.

Lemma stable_save : stable P saveBtn_onclick.
Proof.
  unfold saveBtn_onclick.
  apply stable_bind; [apply stable_get_page | intros p].
  cbv zeta. destruct (String.eqb _ ""); [apply stable_emit |].
  apply stable_bind; [apply stable_fetch | intros res].
  apply stable_bind; [apply stable_res_json | intros json].
  apply stable_bind; [apply stable_member | intros message].
  apply stable_bind; [apply stable_lift | intros text].
  apply stable_bind; [apply stable_emit | intros _].
  apply stable_detach, P_fetchList.
Qed.

Lemma stable_compare : stable P compareBtn_onclick.
Proof.
  unfold compareBtn_onclick.
  apply stable_bind; [apply stable_get_page | intros p].
  cbv zeta. destruct (negb _ || negb _); [apply stable_emit |].
  apply stable_bind; [apply stable_fetch | intros res].
  apply stable_bind; [apply stable_res_json | intros json].
  unfold displayCompare.
  apply stable_bind; [apply stable_lift | intros text].
  apply stable_update, P_compareResult.
Qed.

Lemma stable_export : stable P exportPdfBtn_onclick.
Proof.
  unfold exportPdfBtn_onclick.
  apply stable_bind; [apply stable_fetch | intros res].
  destruct (negb (res_ok res)); apply stable_emit.
Qed.

(** Every action but a toggle and a load. *)
Lemma stable_perform (a : action) :
  is_toggle a = false -> is_load a = false -> stable P (perform a).
Proof.
  destruct a; cbn [is_toggle is_load perform]; intros Ha Hl;
    try discriminate Ha; try discriminate Hl.
  - apply stable_capture.
  - apply stable_image.
  - apply stable_update. intros p. apply P_inputs.
  - apply stable_save.
  - apply P_fetchList.
  - apply stable_compare.
  - apply stable_export.
Qed.
End Stable.

Lemma fetchList_keeps_selection : keeps selectedForCompare fetchList.
Proof.
  unfold fetchList.
  apply keeps_bind; [apply keeps_emit | intros _].
  apply fetchList_resume_keeps_selection.
Qed.

Lemma perform_keeps_selection (a : action) (net : network) (p : page) :
  is_toggle a = false -> is_load a = false ->
  selectedForCompare (final (perform a net p)) = selectedForCompare p.
Proof.
  intros Ha Hl.
  apply (stable_perform (fun q => selectedForCompare q = selectedForCompare p));
    trivial.
  intros net' q Hq. rewrite fetchList_keeps_selection. exact Hq.
Qed.

Lemma script_load_selection (cam : camera) (net : network) (p : page) :
  selectedForCompare (final (script_load cam net p)) = [PNull; PNull].
Proof.
  unfold script_load.
  rewrite (bind_done _ _ net p []
             (set_selected (fun _ => [PNull; PNull]) p) tt eq_refl).
  cbn [final].
  assert (Hrest : keeps selectedForCompare
                    (update (set_appliances (VArr [])) ;;
                     startCamera_begin cam ;;
                     fetch_send list_request ;;
                     detach (startCamera_resume cam) ;;
                     detach fetchList_resume)).
  { apply keeps_bind; [apply keeps_update; reflexivity | intros _].
    apply keeps_bind;
      [destruct cam; first [apply keeps_emit | apply keeps_ret] | intros _].
    apply keeps_bind; [apply keeps_emit | intros _].
    apply keeps_bind;
      [apply keeps_detach;
       destruct cam; first [apply keeps_emit | apply keeps_ret]
      | intros _].
    apply keeps_detach, fetchList_resume_keeps_selection. }
  rewrite Hrest. reflexivity.
Qed.

(** X11: the two slots are written by [toggleSlot] alone (and initialised
    when the script is loaded): capturing or uploading an image, typing,
    Add, Refresh, Compare and Export leave the selection exactly as it was,
    whatever the backend answers. *)
Theorem only_toggle_writes_selection (a : action) (net : network) (p : page) :
  is_toggle a = false -> is_load a = false ->
  selectedForCompare (final (perform a net p)) = selectedForCompare p.
Proof. apply perform_keeps_selection. Qed.

Lemma only_toggle_writes_selection_witness :
  selectedForCompare
    (final (perform ActSave (always (json_response true "" two_appliances))
              page_fridge))
  = selectedForCompare page_fridge.
Proof.
  apply (only_toggle_writes_selection ActSave
           (always (json_response true "" two_appliances)) page_fridge).
  - reflexivity.
  - reflexivity.
Defined.

Lemma session_selection_from (steps : list (action * network)) :
  forall p0 : page,
    List.length (selectedForCompare p0) = 2 ->
    List.length (selectedForCompare (session steps p0)) = 2
    /\ forall s : slot,
        held (session steps p0) s = held p0 s
        \/ held (session steps p0) s = PNull
        \/ In (held (session steps p0) s) (pressed_ids steps).
Proof.
  induction steps as [| [a net] rest IH]; intros p0 Hlen.
  - cbn. split; [exact Hlen | intros s; left; reflexivity].
  - cbn [session].
    set (p1 := final (perform a net p0)).
    destruct (is_toggle a) eqn:Ha; [| destruct (is_load a) eqn:Hl].
    + destruct a as [| | | | | | s' id | |]; try discriminate Ha.
      assert (Hlen1 : List.length (selectedForCompare p1) = 2).
      { unfold p1. cbn [perform]. unfold slot_button_onclick.
        rewrite toggleSlot_selection, toggled_length; [exact Hlen |].
        rewrite Hlen. destruct s'; cbn; lia. }
      destruct (IH p1 Hlen1) as [IHlen IHheld].
      split; [exact IHlen |]. intros s. cbn [pressed_ids].
      destruct (IHheld s) as [Hsame | [Hnull | Hin]].
      * rewrite Hsame. unfold p1. cbn [perform].
        rewrite held_after_toggle.
        destruct (Nat.eq_dec (slot_index s) (slot_index s')) as [E | E].
        { rewrite E. unfold toggled.
          destruct (strict_eq (array_get (selectedForCompare p0)
                                 (slot_index s')) id);
            rewrite array_get_set_same; [right; left | right; right; left];
            reflexivity. }
        { left. apply toggled_other. exact E. }
      * right; left. exact Hnull.
      * right; right; right. exact Hin.
    + destruct a as [cam d r | | | | | | | |]; try discriminate Hl.
      assert (Hsel : selectedForCompare p1 = [PNull; PNull])
        by (unfold p1; cbn [perform]; apply script_load_selection).
      assert (Hlen1 : List.length (selectedForCompare p1) = 2)
        by (rewrite Hsel; reflexivity).
      destruct (IH p1 Hlen1) as [IHlen IHheld].
      split; [exact IHlen |]. intros s. cbn [pressed_ids].
      destruct (IHheld s) as [Hsame | Hother]; [| right; exact Hother].
      right; left. rewrite Hsame. unfold held. rewrite Hsel.
      destruct s; reflexivity.
    + assert (Hsel : selectedForCompare p1 = selectedForCompare p0)
        by (apply perform_keeps_selection; assumption).
      assert (Hlen1 : List.length (selectedForCompare p1) = 2)
        by (rewrite Hsel; exact Hlen).
      destruct (IH p1 Hlen1) as [IHlen IHheld].
      split; [exact IHlen |]. intros s.
      assert (Hpress : pressed_ids ((a, net) :: rest) = pressed_ids rest)
        by (destruct a; try reflexivity; discriminate Ha).
      rewrite Hpress.
      destruct (IHheld s) as [Hsame | Hother]; [| right; exact Hother].
      left. rewrite Hsame. unfold held. rewrite Hsel. reflexivity.
Qed.

(** X12: in every session, whatever actions it is made of and whatever the
    backend answers, the selection stays a pair of exactly two slots, and
    each slot is empty or holds an identifier whose slot button was pressed
    during the session. *)
Theorem session_selection_invariant
        (steps : list (action * network)) (d r : string) (s : slot) :
  List.length (selectedForCompare (session steps (initial_page d r))) = 2
  /\ (held (session steps (initial_page d r)) s = PNull
      \/ In (held (session steps (initial_page d r)) s) (pressed_ids steps)).
Proof.
  destruct (session_selection_from steps (initial_page d r) eq_refl)
    as [Hlen Hheld].
  split; [exact Hlen |].
  destruct (Hheld s) as [Hsame | Hother]; [| exact Hother].
  left. rewrite Hsame. destruct s; reflexivity.
Qed.

Lemma renderList_in_step (net : network) (p : page) :
  rows_in_step (final (renderList net p)).
Proof.
  destruct (appliances p) as [q | l | ps] eqn:Hp.
  - rewrite renderList_not_array by (rewrite Hp; reflexivity).
    left. reflexivity.
  - rewrite (renderList_array l net p Hp). right.
    destruct (rendered_is_prefix l) as [rest Hrest]. exists rest.
    cbn [final appliances listEl set_listEl]. rewrite Hp, <- Hrest.
    reflexivity.
  - rewrite renderList_not_array by (rewrite Hp; reflexivity).
    left. reflexivity.
Qed.

Lemma fetchList_resume_in_step : stable rows_in_step fetchList_resume.
Proof.
  intros net p Hp.
  destruct (net list_request) as [r |] eqn:Enet.
  - destruct (res_parsed r) as [data |] eqn:Ev.
    + rewrite (fetchList_resume_parsed net p r data Enet Ev).
      apply renderList_in_step.
    + rewrite (fetchList_resume_unparsed net p r Enet Ev). exact Hp.
  - rewrite (fetchList_resume_rejected net p Enet). exact Hp.
Qed.

Lemma fetchList_in_step : stable rows_in_step fetchList.
Proof.
  intros net p Hp. rewrite fetchList_split. cbn [final].
  apply fetchList_resume_in_step. exact Hp.
Qed.

Lemma highlightSelected_stays_in_step : stable rows_in_step highlightSelected.
Proof.
  intros net p Hp. rewrite (highlightSelected_in_step net p Hp). cbn [final].
  destruct Hp as [Hnone | [rest Happ]].
  - left. cbn [listEl set_listEl]. rewrite Hnone. reflexivity.
  - right. exists rest. cbn [listEl appliances set_listEl].
    rewrite map_record_highlight. exact Happ.
Qed.

Lemma script_load_in_step (cam : camera) (net : network) (p : page) :
  listEl p = [] -> rows_in_step (final (script_load cam net p)).
Proof.
  intros Hrows. unfold script_load.
  rewrite (bind_done _ _ net p []
             (set_selected (fun _ => [PNull; PNull]) p) tt eq_refl).
  rewrite (bind_done _ _ net _ []
             (set_appliances (VArr [])
                (set_selected (fun _ => [PNull; PNull]) p)) tt eq_refl).
  cbn [final].
  assert (Hrest : stable rows_in_step
                    (startCamera_begin cam ;;
                     fetch_send list_request ;;
                     detach (startCamera_resume cam) ;;
                     detach fetchList_resume)).
  { apply stable_bind;
      [destruct cam; first [apply stable_emit | apply stable_ret] | intros _].
    apply stable_bind; [apply stable_emit | intros _].
    apply stable_bind;
      [apply stable_detach;
       destruct cam; first [apply stable_emit | apply stable_ret]
      | intros _].
    apply stable_detach, fetchList_resume_in_step. }
  apply Hrest. left. exact Hrows.
Qed.

Lemma perform_in_step (a : action) : stable rows_in_step (perform a).
Proof.
  destruct (is_toggle a) eqn:Ha; [| destruct (is_load a) eqn:Hl].
  - destruct a as [| | | | | | s id | |]; try discriminate Ha.
    intros net p Hp. cbn [perform]. unfold slot_button_onclick.
    rewrite toggleSlot_unfold. cbn [final].
    apply fetchList_resume_in_step, highlightSelected_stays_in_step.
    exact Hp.
  - destruct a as [cam d r | | | | | | | |]; try discriminate Hl.
    intros net p Hp. cbn [perform]. apply script_load_in_step. reflexivity.
  - apply stable_perform; trivial. apply fetchList_in_step.
Qed.

Lemma session_in_step (steps : list (action * network)) :
  forall p0, rows_in_step p0 -> rows_in_step (session steps p0).
Proof.
  induction steps as [| [a net] rest IH]; intros p0 Hp; cbn [session].
  - exact Hp.
  - apply IH, perform_in_step, Hp.
Qed.

(** X13: in every session the rows of the list are either none or stand, in
    order, for the first records of the cached list; hence, on every page a
    session reaches, [highlightSelected] ends normally and marks exactly the
    rows whose record id is in one of the two slots. *)
Theorem session_rows_follow_cache
        (steps : list (action * network)) (d r : string) (net : network) :
  rows_in_step (session steps (initial_page d r))
  /\ highlightSelected net (session steps (initial_page d r))
     = mkRun []
         (set_listEl
            (map (highlight_row
                    (selectedForCompare (session steps (initial_page d r))))
                 (listEl (session steps (initial_page d r))))
            (session steps (initial_page d r)))
         (Done tt).
Proof.
  assert (Hstep : rows_in_step (session steps (initial_page d r))).
  { apply session_in_step. left. reflexivity. }
  split; [exact Hstep |].
  apply highlightSelected_in_step. exact Hstep.
Qed.

(* ------------------------------------------------------------------ *)
(** * More on Add *)

Lemma set_cache_same (p : page) :
  set_listEl (listEl p) (set_appliances (appliances p) p) = p.
Proof. destruct p; reflexivity. Qed.

Lemma fetchList_resume_shape (net : network) (p : page) :
  exists rows data,
    final (fetchList_resume net p) = set_listEl rows (set_appliances data p).
Proof.
  destruct (net list_request) as [r |] eqn:Enet.
  - destruct (res_parsed r) as [data |] eqn:Ev.
    + rewrite (fetchList_resume_parsed net p r data Enet Ev).
      destruct data as [q | l | ps].
      * rewrite renderList_not_array by reflexivity. eexists _, _; reflexivity.
      * rewrite (renderList_array l net (set_appliances (VArr l) p) eq_refl).
        eexists _, _; reflexivity.
      * rewrite renderList_not_array by reflexivity. eexists _, _; reflexivity.
    + rewrite (fetchList_resume_unparsed net p r Enet Ev).
      exists (listEl p), (appliances p). symmetry. apply set_cache_same.
  - rewrite (fetchList_resume_rejected net p Enet).
    exists (listEl p), (appliances p). symmetry. apply set_cache_same.
Qed.

(** X14: a run of [fetchList] changes nothing on the page but the cached
    list and the rows: slots, detected text, raw text, comparison panel and
    input fields are as before, whatever the backend answers. *)
Theorem fetchList_touches_only_list (net : network) (p : page) :
  exists rows data,
    final (fetchList net p) = set_listEl rows (set_appliances data p).
Proof.
  rewrite fetchList_split. cbn [final]. apply fetchList_resume_shape.
Qed.

Lemma fetchList_form (net : network) (p : page) :
  form (final (fetchList net p)) = form p.
Proof.
  rewrite fetchList_split. cbn [final].
  destruct (fetchList_resume_shape net p) as [rows [data E]].
  rewrite E. reflexivity.
Qed.

Lemma save_keeps_form (net : network) (p : page) :
  form (final (saveBtn_onclick net p)) = form p.
Proof.
  apply (stable_save (fun q => form q = form p)); trivial.
  intros net' q Hq. rewrite fetchList_form. exact Hq.
Qed.

Lemma form_resolved (p q : page) :
  form p = form q ->
  resolved_aec p = resolved_aec q
  /\ add_request_of p (resolved_aec p) = add_request_of q (resolved_aec q).
Proof.
  unfold form, resolved_aec, add_request_of. intros H.
  injection H as Hd Hn Hp Hr Hm. rewrite Hd, Hn, Hp, Hr, Hm.
  split; reflexivity.
Qed.

(** X15: Add leaves the form as it found it: the detected text and the four
    input fields are not cleared, whatever the backend answers, so pressing
    the button again sends the very same write request a second time. *)
Theorem save_twice_sends_same_request (net1 net2 : network) (p : page) :
  resolved_aec p <> "" ->
  form (final (saveBtn_onclick net1 p)) = form p
  /\ exists rest,
      trace (saveBtn_onclick net2 (final (saveBtn_onclick net1 p)))
      = EvFetch (add_request_of p (resolved_aec p)) :: rest.
Proof.
  intros Hne. split; [apply save_keeps_form |].
  destruct (form_resolved _ _ (save_keeps_form net1 p)) as [Hres Hreq].
  rewrite <- Hreq. apply save_first_effect.
  rewrite Hres. apply String.eqb_neq. exact Hne.
Qed.

Lemma save_twice_sends_same_request_witness :
  exists rest,
    trace (saveBtn_onclick offline
             (final (saveBtn_onclick
                       (always (json_response true "" no_reading))
                       page_fridge)))
    = EvFetch (add_request "Fridge" "12000" "7" "350") :: rest.
Proof.
  destruct (save_twice_sends_same_request
              (always (json_response true "" no_reading)) offline page_fridge)
    as [_ Hsend].
  - vm_compute. discriminate.
  - exact Hsend.
Defined.

Lemma save_answered (net : network) (p : page) (r : response) (json : jsval) :
  resolved_aec p <> "" ->
  net (add_request_of p (resolved_aec p)) = Resolved r ->
  res_parsed r = Some json ->
  nullish json = false ->
  saveBtn_onclick net p
  = match to_string (js_or (get_prop json "message") (VPrim (PStr "Saved")))
    with
    | Done text =>
        mkRun [EvFetch (add_request_of p (resolved_aec p)); EvAlert text;
               EvFetch list_request]
              (final (fetchList net p)) (Done tt)
    | Throw e =>
        mkRun [EvFetch (add_request_of p (resolved_aec p))] p (Throw e)
    end.
Proof.
  intros Hne Enet Ev Hjson. rewrite save_unfold.
  apply String.eqb_neq in Hne. rewrite Hne.
  rewrite (fetch_resolved _ _ net p r Enet).
  rewrite (res_json_parsed r _ net p json Ev).
  rewrite (member_defined json _ _ net p Hjson).
  destruct (to_string (js_or (get_prop json "message") (VPrim (PStr "Saved"))))
    as [text | e] eqn:Etext.
  - rewrite (lift_done _ _ net p text eq_refl).
    rewrite (bind_done (alert text) _ net p [EvAlert text] p tt eq_refl).
    cbn [trace final outcome detach app]. rewrite fetchList_trace.
    reflexivity.
  - rewrite (lift_throw _ _ net p e eq_refl). reflexivity.
Qed.

(** X16: when the write request of Add is answered with a JSON body that is
    not [null], of whatever status, the handler alerts the text Saved if the
    [message] of the body is falsy and the text of the message if it is
    truthy and converts, and then reads the list again: two requests, the
    write and the read, in this order.  A truthy message that does not
    convert ends the handler in a TypeError right after the write: nothing is
    alerted and the list is not read. *)
Theorem save_answered_alerts_and_refetches
        (net : network) (p : page) (r : response) (json : jsval) :
  resolved_aec p <> "" ->
  net (add_request_of p (resolved_aec p)) = Resolved r ->
  res_parsed r = Some json ->
  nullish json = false ->
  (truthy (get_prop json "message") = false ->
   trace (saveBtn_onclick net p)
   = [EvFetch (add_request_of p (resolved_aec p)); EvAlert "Saved";
      EvFetch list_request]
   /\ outcome (saveBtn_onclick net p) = Done tt)
  /\ (truthy (get_prop json "message") = true ->
      printable (get_prop json "message") = true ->
      trace (saveBtn_onclick net p)
      = [EvFetch (add_request_of p (resolved_aec p));
         EvAlert (text_of (get_prop json "message"));
         EvFetch list_request]
      /\ outcome (saveBtn_onclick net p) = Done tt)
  /\ (truthy (get_prop json "message") = true ->
      printable (get_prop json "message") = false ->
      saveBtn_onclick net p
      = mkRun [EvFetch (add_request_of p (resolved_aec p))] p
              (Throw TypeError)).
Proof.
  intros Hne Enet Ev Hjson.
  rewrite (save_answered net p r json Hne Enet Ev Hjson).
  unfold js_or, to_string.
  split; [| split].
  - intros Hfalsy. rewrite Hfalsy. split; reflexivity.
  - intros Htruthy Hprint. rewrite Htruthy, Hprint. split; reflexivity.
  - intros Htruthy Hprint. rewrite Htruthy, Hprint. reflexivity.
Qed.

Lemma save_answered_alerts_and_refetches_witness :
  trace (saveBtn_onclick
           (always (json_response false ""
                      (VObj [("message", VPrim (PStr "Invalid price"))])))
           page_fridge)
  = [EvFetch (add_request "Fridge" "12000" "7" "350");
     EvAlert "Invalid price";
     EvFetch list_request].
Proof.
  destruct (save_answered_alerts_and_refetches
              (always (json_response false ""
                         (VObj [("message", VPrim (PStr "Invalid price"))])))
              page_fridge
              (json_response false ""
                 (VObj [("message", VPrim (PStr "Invalid price"))]))
              (VObj [("message", VPrim (PStr "Invalid price"))]))
    as [_ [Htext _]].
  - vm_compute. discriminate.
  - reflexivity.
  - reflexivity.
  - reflexivity.
  - apply Htext; reflexivity.
Defined.

(** X17: when the write request of Add fails, or is answered with a body
    that is not JSON or is the JSON [null], the handler ends in an exception
    right after the one request: nothing is alerted, the list is not read
    again and the page is as before. *)
Theorem save_unanswered_is_silent (net : network) (p : page) :
  resolved_aec p <> "" ->
  (net (add_request_of p (resolved_aec p)) = Rejected ->
   saveBtn_onclick net p
   = mkRun [EvFetch (add_request_of p (resolved_aec p))] p
           (Throw NetworkError))
  /\ (forall r,
         net (add_request_of p (resolved_aec p)) = Resolved r ->
         res_parsed r = None ->
         saveBtn_onclick net p
         = mkRun [EvFetch (add_request_of p (resolved_aec p))] p
                 (Throw SyntaxError))
  /\ (forall r json,
         net (add_request_of p (resolved_aec p)) = Resolved r ->
         res_parsed r = Some json -> nullish json = true ->
         saveBtn_onclick net p
         = mkRun [EvFetch (add_request_of p (resolved_aec p))] p
                 (Throw TypeError)).
Proof.
  intros Hne. apply String.eqb_neq in Hne.
  split; [| split].
  - intros Enet. rewrite save_unfold, Hne.
    apply (fetch_rejected _ _ net p Enet).
  - intros r Enet Ev. rewrite save_unfold, Hne.
    rewrite (fetch_resolved _ _ net p r Enet).
    rewrite (res_json_unparsed r _ net p Ev). reflexivity.
  - intros r json Enet Ev Hnull. rewrite save_unfold, Hne.
    rewrite (fetch_resolved _ _ net p r Enet).
    rewrite (res_json_parsed r _ net p json Ev).
    rewrite (member_nullish json _ _ net p Hnull). reflexivity.
Qed.

Lemma save_unanswered_is_silent_witness :
  saveBtn_onclick offline page_fridge
  = mkRun [EvFetch (add_request "Fridge" "12000" "7" "350")] page_fridge
          (Throw NetworkError)
  /\ saveBtn_onclick (always error_page) page_fridge
     = mkRun [EvFetch (add_request "Fridge" "12000" "7" "350")] page_fridge
             (Throw SyntaxError).
Proof.
  split.
  - destruct (save_unanswered_is_silent offline page_fridge) as [Hoff _].
    + vm_compute. discriminate.
    + apply Hoff. reflexivity.
  - destruct (save_unanswered_is_silent (always error_page) page_fridge)
      as [_ [Hraw _]].
    + vm_compute. discriminate.
    + apply (Hraw error_page); reflexivity.
Defined.

(* ------------------------------------------------------------------ *)
(** * More on Compare, Export and the image handlers *)

Lemma set_compareResult_same (p : page) :
  set_compareResult (compareResult p) p = p.
Proof. destruct p; reflexivity. Qed.

(** X18: Compare changes nothing on the page but the comparison panel, and
    with a truthy identifier in each slot an exchange that fails, or an
    answer that is not JSON, ends the handler in an exception and leaves the
    whole page, the panel with the earlier comparison included, exactly as
    it was. *)
Theorem compare_failure_keeps_panel (net : network) (p : page) :
  (exists panel, final (compareBtn_onclick net p) = set_compareResult panel p)
  /\ (truthy_prim (held p SlotA) = true ->
      truthy_prim (held p SlotB) = true ->
      (forall r,
          net (compare_request (selectedForCompare p)) = Resolved r ->
          res_parsed r = None ->
          compareBtn_onclick net p
          = mkRun [EvFetch (compare_request (selectedForCompare p))] p
                  (Throw SyntaxError))
      /\ (net (compare_request (selectedForCompare p)) = Rejected ->
          compareBtn_onclick net p
          = mkRun [EvFetch (compare_request (selectedForCompare p))] p
                  (Throw NetworkError))).
Proof.
  rewrite compare_unfold. split.
  - destruct (negb (truthy_prim (held p SlotA))
              || negb (truthy_prim (held p SlotB))).
    { exists (compareResult p). symmetry. apply set_compareResult_same. }
    destruct (net (compare_request (selectedForCompare p))) as [r |] eqn:Enet.
    + rewrite (fetch_resolved _ _ net p r Enet). cbn [final].
      destruct (res_parsed r) as [json |] eqn:Ev.
      * rewrite (res_json_parsed r _ net p json Ev). unfold displayCompare.
        destruct (escapeHtml (of_option (JSON_stringify_pretty json)))
          as [text | e].
        -- eexists. reflexivity.
        -- exists (compareResult p). symmetry. apply set_compareResult_same.
      * rewrite (res_json_unparsed r _ net p Ev).
        exists (compareResult p). symmetry. apply set_compareResult_same.
    + rewrite (fetch_rejected _ _ net p Enet).
      exists (compareResult p). symmetry. apply set_compareResult_same.
  - intros HA HB. rewrite HA, HB. cbn [negb orb]. split.
    + intros r Enet Ev.
      rewrite (fetch_resolved _ _ net p r Enet).
      rewrite (res_json_unparsed r _ net p Ev). reflexivity.
    + intros Enet. apply (fetch_rejected _ _ net p Enet).
Qed.

Lemma compare_failure_keeps_panel_witness :
  compareBtn_onclick offline page_A1_B2
  = mkRun [EvFetch (compare_request [PNum 1; PNum 2])] page_A1_B2
          (Throw NetworkError)
  /\ compareBtn_onclick (always error_page) page_A1_B2
     = mkRun [EvFetch (compare_request [PNum 1; PNum 2])] page_A1_B2
             (Throw SyntaxError).
Proof.
  destruct (compare_failure_keeps_panel offline page_A1_B2) as [_ Hoff].
  destruct (compare_failure_keeps_panel (always error_page) page_A1_B2)
    as [_ Hraw].
  split.
  - destruct (Hoff eq_refl eq_refl) as [_ H]. apply H. reflexivity.
  - destruct (Hraw eq_refl eq_refl) as [H _]. apply (H error_page); reflexivity.
Defined.

(** X19: Export always makes exactly one request and never changes the
    page; when the exchange fails outright the handler ends in an exception
    without any alert and without a download. *)
Theorem export_one_request_page_unchanged (net : network) (p : page) :
  fetches (trace (exportPdfBtn_onclick net p)) = [export_request]
  /\ final (exportPdfBtn_onclick net p) = p
  /\ (net export_request = Rejected ->
      exportPdfBtn_onclick net p
      = mkRun [EvFetch export_request] p (Throw NetworkError)).
Proof.
  unfold exportPdfBtn_onclick.
  destruct (net export_request) as [r |] eqn:Enet.
  - rewrite (fetch_resolved export_request _ net p r Enet).
    destruct (res_ok r); cbn; repeat split; discriminate.
  - rewrite (fetch_rejected export_request _ net p Enet).
    repeat split; reflexivity.
Qed.

Lemma export_one_request_page_unchanged_witness :
  exportPdfBtn_onclick offline page_fridge
  = mkRun [EvFetch export_request] page_fridge (Throw NetworkError).
Proof.
  destruct (export_one_request_page_unchanged offline page_fridge)
    as [_ [_ Hoff]].
  apply Hoff. reflexivity.
Defined.

Lemma image_handler_trace (src : image_source) (frame : option blob)
      (net : network) (p : page) :
  trace (image_handler src frame net p)
  = match frame with
    | Some b => [EvFetch (ocr_request b)]
    | None => []
    end.
Proof.
  destruct frame as [b |]; [| destruct src; reflexivity].
  rewrite image_handler_same_trace, extraction_unfold.
  destruct (net (ocr_request b)) as [r |] eqn:Enet.
  - destruct (res_parsed r) as [v |] eqn:Ev.
    + rewrite (sendBlobForOcr_resolved b _ net p r v Enet Ev). cbn [trace].
      rewrite handleOcrResult_quiet. reflexivity.
    + rewrite (sendBlobForOcr_unparsed b _ net p r Enet Ev). reflexivity.
  - rewrite (sendBlobForOcr_rejected b _ net p Enet). reflexivity.
Qed.

(** X20: a capture or an upload makes one extraction request, carrying the
    image in the field [image] under the file name capture.jpg, and nothing
    else that is visible: no second request, no retry and no alert whatever
    the answer; without an image (no frame, no chosen file) it makes no
    request at all and leaves the page as it is. *)
Theorem image_handler_one_request
        (src : image_source) (frame : option blob) (net : network) (p : page) :
  trace (image_handler src frame net p)
  = match frame with
    | Some b =>
        [EvFetch (mkRequest POST "/api/ocr" []
                            (BForm [("image", FFile b "capture.jpg")]))]
    | None => []
    end
  /\ (frame = None -> image_handler src frame net p = mkRun [] p (Done tt)).
Proof.
  split; [apply image_handler_trace |].
  intros Hnone. rewrite Hnone. destruct src; reflexivity.
Qed.

Lemma image_handler_one_request_witness :
  image_handler FromCamera None offline page_fridge
  = mkRun [] page_fridge (Done tt).
Proof.
  destruct (image_handler_one_request FromCamera None offline page_fridge)
    as [_ Hnone].
  apply Hnone. reflexivity.
Defined.

(** X21: a reading that is present is shown as it is: only [null] and a
    missing field give the placeholder, while a reading of 0, [false] or the
    empty string is displayed as its own text, a number as JavaScript prints
    it.  A reading that does not convert to text (an object with an own
    [toString]) raises a TypeError in the extraction and leaves the page as
    it was. *)
Theorem extraction_shows_present_reading
        (src : image_source) (b : blob) (net : network) (p : page)
        (r : response) (v : jsval) :
  net (ocr_request b) = Resolved r -> res_parsed r = Some v ->
  truthy v = true ->
  nullish (get_prop v "estimated_kwh_per_year") = false ->
  (printable (get_prop v "estimated_kwh_per_year") = true ->
   detected (final (image_handler src (Some b) net p))
   = text_of (get_prop v "estimated_kwh_per_year"))
  /\ (printable (get_prop v "estimated_kwh_per_year") = false ->
      outcome (extraction src (Some b) net p) = Throw TypeError
      /\ final (image_handler src (Some b) net p) = p).
Proof.
  intros Enet Ev Ht Hpresent.
  rewrite image_handler_final, extraction_unfold.
  rewrite (sendBlobForOcr_resolved b _ net p r v Enet Ev).
  split; intros Hprint.
  - rewrite (handleOcrResult_shown v net p
               (text_of (get_prop v "estimated_kwh_per_year")) Ht).
    + destruct (to_text (raw_value v)); reflexivity.
    + unfold js_coalesce, to_text, to_string.
      rewrite Hpresent, Hpresent, Hprint. reflexivity.
  - rewrite (handleOcrResult_unshown v net p TypeError Ht).
    + split; reflexivity.
    + unfold js_coalesce, to_text, to_string.
      rewrite Hpresent, Hpresent, Hprint. reflexivity.
Qed.

Lemma extraction_shows_present_reading_witness :
  detected (final (image_handler FromFile (Some "jpeg")
                     (always (json_response true ""
                                (VObj [("estimated_kwh_per_year",
                                        VPrim (PNum 0))])))
                     (initial_page "" "")))
  = "0"
  /\ detected (final (image_handler FromCamera (Some "jpeg")
                        (always (json_response true ""
                                   (VObj [("estimated_kwh_per_year",
                                           VPrim (PDec 3505 1))])))
                        (initial_page "" "")))
     = "350.5".
Proof.
  split.
  - destruct (extraction_shows_present_reading FromFile "jpeg"
                (always (json_response true ""
                           (VObj [("estimated_kwh_per_year",
                                   VPrim (PNum 0))])))
                (initial_page "" "")
                (json_response true ""
                   (VObj [("estimated_kwh_per_year", VPrim (PNum 0))]))
                (VObj [("estimated_kwh_per_year", VPrim (PNum 0))])
                eq_refl eq_refl eq_refl eq_refl) as [Hshown _].
    apply (Hshown eq_refl).
  - destruct (extraction_shows_present_reading FromCamera "jpeg"
                (always (json_response true ""
                           (VObj [("estimated_kwh_per_year",
                                   VPrim (PDec 3505 1))])))
                (initial_page "" "")
                (json_response true ""
                   (VObj [("estimated_kwh_per_year", VPrim (PDec 3505 1))]))
                (VObj [("estimated_kwh_per_year", VPrim (PDec 3505 1))])
                eq_refl eq_refl eq_refl eq_refl) as [Hshown _].
    apply (Hshown eq_refl).
Defined.

(* ------------------------------------------------------------------ *)
(** * More on toggles and on loading *)

Lemma array_set_get_same (a : list prim) (i : nat) :
  i < List.length a -> array_set a i (array_get a i) = a.
Proof.
  unfold array_get. revert a.
  induction i as [| n IH]; intros [| h t] Hlt; cbn in *; try lia; trivial.
  rewrite IH by lia. reflexivity.
Qed.

Lemma array_set_twice (a : list prim) (i : nat) (v w : prim) :
  array_set (array_set a i v) i w = array_set a i w.
Proof.
  revert a. induction i as [| n IH]; intros [| h t]; cbn; trivial;
    rewrite IH; reflexivity.
Qed.

(** X22: on a selection of two slots, pressing the same slot button twice
    gives back the selection one started from whenever the slot was empty or
    already held that identifier: the two presses undo each other and the
    other slot is never touched. *)
Theorem toggle_twice_restores_selection
        (s : slot) (x : prim) (net1 net2 : network) (p : page) :
  List.length (selectedForCompare p) = 2 ->
  held p s = PNull \/ held p s = x ->
  selectedForCompare (toggle_twice s x net1 net2 p) = selectedForCompare p.
Proof.
  intros Hlen Hheld. unfold toggle_twice, slot_button_onclick.
  rewrite !toggleSlot_selection.
  assert (Hi : slot_index s < List.length (selectedForCompare p))
    by (rewrite Hlen; destruct s; cbn; lia).
  unfold held in Hheld. set (sel := selectedForCompare p) in *.
  set (i := slot_index s) in *.
  unfold toggled at 2.
  destruct (strict_eq (array_get sel i) x) eqn:E.
  - unfold toggled. rewrite array_get_set_same.
    destruct (strict_eq PNull x) eqn:E0.
    + rewrite array_set_twice.
      destruct Hheld as [H | H].
      * rewrite <- H at 1. apply array_set_get_same. exact Hi.
      * destruct x; cbn in E0; try discriminate.
        rewrite <- H at 1. apply array_set_get_same. exact Hi.
    + rewrite array_set_twice.
      destruct Hheld as [H | H].
      * rewrite H in E. rewrite E in E0. discriminate.
      * rewrite <- H at 1. apply array_set_get_same. exact Hi.
  - unfold toggled. rewrite array_get_set_same, strict_eq_refl.
    rewrite array_set_twice.
    destruct Hheld as [H | H].
    + rewrite <- H. apply array_set_get_same. exact Hi.
    + rewrite H, strict_eq_refl in E. discriminate.
Qed.

Lemma toggle_twice_restores_selection_witness :
  selectedForCompare (toggle_twice SlotA (PNum 1) offline offline page_A1)
  = [PNum 1; PNull].
Proof.
  rewrite (toggle_twice_restores_selection SlotA (PNum 1) offline offline
             page_A1).
  - reflexivity.
  - reflexivity.
  - right. reflexivity.
Defined.
